(** * Graphing tool: expression sampling, viewport and derivative engine

    A shallow embedding of the numerical core of the graphing application:
    - [graphUtils] : [evaluateExpression], [generatePoints], [validateExpression];
    - [GraphDisplay] : [calculateBounds], [scaleX], [scaleY],
      [canvasToGraphCoords], [calculateDerivative], the panning handlers;
    - [GraphingTool] / [GraphControls] : the zoom mutators.

    JavaScript numbers are modelled by [number]: an exact rational, or one of
    the three special values NaN, Infinity and -Infinity.  Arithmetic on
    finite values is exact: rounding, overflow and the sign of zero are not
    modelled.  The mathjs library is external to the repository: it is a
    parameter ([MathJs]) of everything that calls it. *)

From Stdlib Require Import QArith Qabs Qround Lqa Lia ZArith.
From Stdlib Require Import List String Ascii Bool.
Import ListNotations.

Local Open Scope Q_scope.

(** ** JavaScript numbers *)

Module Number.

Inductive number : Type :=
| Num (q : Q)
| NaN
| Infinity
| NegInfinity.

Definition isNaN (a : number) : bool :=
  match a with NaN => true | _ => false end.

Definition isFinite (a : number) : bool :=
  match a with Num _ => true | _ => false end.

Definition Qltb (p q : Q) : bool := negb (Qle_bool q p).

(** [a + b] *)
Definition add (a b : number) : number :=
  match a, b with
  | NaN, _ | _, NaN => NaN
  | Num p, Num q => Num (p + q)
  | Infinity, NegInfinity | NegInfinity, Infinity => NaN
  | Infinity, _ | _, Infinity => Infinity
  | NegInfinity, _ | _, NegInfinity => NegInfinity
  end.

(** [a - b] *)
Definition sub (a b : number) : number :=
  match a, b with
  | NaN, _ | _, NaN => NaN
  | Num p, Num q => Num (p - q)
  | Infinity, Infinity | NegInfinity, NegInfinity => NaN
  | Infinity, _ | _, NegInfinity => Infinity
  | NegInfinity, _ | _, Infinity => NegInfinity
  end.

(** the infinity with the sign of [q], NaN when [q] is zero *)
Definition signed_infinity (q : Q) : number :=
  match q ?= 0 with
  | Gt => Infinity
  | Lt => NegInfinity
  | Eq => NaN
  end.

(** [a * b] *)
Definition mul (a b : number) : number :=
  match a, b with
  | NaN, _ | _, NaN => NaN
  | Num p, Num q => Num (p * q)
  | Infinity, Num q | Num q, Infinity => signed_infinity q
  | NegInfinity, Num q | Num q, NegInfinity => signed_infinity (- q)
  | Infinity, Infinity | NegInfinity, NegInfinity => Infinity
  | Infinity, NegInfinity | NegInfinity, Infinity => NegInfinity
  end.

(** [a / b]; a zero divisor is taken as +0 *)
Definition div (a b : number) : number :=
  match a, b with
  | NaN, _ | _, NaN => NaN
  | Num p, Num q => if Qeq_bool q 0 then signed_infinity p else Num (p / q)
  | Num _, Infinity | Num _, NegInfinity => Num 0
  | Infinity, Num q => if Qltb q 0 then NegInfinity else Infinity
  | NegInfinity, Num q => if Qltb q 0 then Infinity else NegInfinity
  | Infinity, _ | NegInfinity, _ => NaN
  end.

(** [Math.abs] *)
Definition abs (a : number) : number :=
  match a with
  | Num q => Num (Qabs q)
  | NaN => NaN
  | Infinity | NegInfinity => Infinity
  end.

(** [a <= b]: false as soon as one side is NaN *)
Definition leb (a b : number) : bool :=
  match a, b with
  | NaN, _ | _, NaN => false
  | Num p, Num q => Qle_bool p q
  | NegInfinity, _ | _, Infinity => true
  | Infinity, _ | _, NegInfinity => false
  end.

(** [a < b] *)
Definition ltb (a b : number) : bool :=
  match a, b with
  | NaN, _ | _, NaN => false
  | Num p, Num q => Qltb p q
  | Infinity, _ | _, NegInfinity => false
  | NegInfinity, _ | _, Infinity => true
  end.

(** [a > b] *)
Definition gtb (a b : number) : bool := ltb b a.

(** [Math.max(a, b)] and [Math.min(a, b)]: NaN if either argument is *)
Definition max (a b : number) : number :=
  if isNaN a || isNaN b then NaN else if ltb a b then b else a.

Definition min (a b : number) : number :=
  if isNaN a || isNaN b then NaN else if ltb b a then b else a.

(** Equality of numbers as values: rationals are compared by [Qeq]. *)
Definition num_eq (a b : number) : Prop :=
  match a, b with
  | Num p, Num q => p == q
  | NaN, NaN | Infinity, Infinity | NegInfinity, NegInfinity => True
  | _, _ => False
  end.

End Number.
Import Number.

Declare Scope js_scope.
Delimit Scope js_scope with js.
Infix "+" := add : js_scope.
Infix "-" := sub : js_scope.
Infix "*" := mul : js_scope.
Infix "/" := div : js_scope.
Infix "<=?" := leb : js_scope.
Infix "<?" := ltb : js_scope.
Infix ">?" := gtb : js_scope.

(** ** Completions: a call returns a value or throws *)

Inductive completion (A : Type) : Type :=
| Returns (a : A)
| Throws (message : string).
Arguments Returns {A} a.
Arguments Throws {A} message.

Definition bind {A B : Type} (c : completion A) (k : A -> completion B)
  : completion B :=
  match c with
  | Returns a => k a
  | Throws m => Throws m
  end.

Notation "x <- c ;; k" := (bind c (fun x => k))
  (at level 61, c at next level, right associativity).

(** [try { body } catch (error) { handler(error.message) }] *)
Definition try_catch {A : Type} (body : completion A)
  (handler : string -> completion A) : completion A :=
  match body with
  | Returns a => Returns a
  | Throws m => handler m
  end.

(** ** The mathjs instance [math]

    [math.parse(s)] builds a node or throws a syntax error;
    [node.compile().evaluate({x})] yields a number or throws (undefined
    symbol, ...).  [math.compile(s)] is [math.parse(s).compile()].
    What is thrown is an [Error], of which the callers read [message]; the
    value of an expression is a number, as the JSDoc of
    [evaluateExpression] has it. *)

Record MathJs : Type := {
  node : Type;
  parse : string -> completion node;
  evaluate : node -> number -> completion number
}.

(** ** Strings *)

Module JsString.

Local Open Scope char_scope.

(** the ASCII part of the white space that [String.prototype.trim] strips *)
Definition is_whitespace (c : ascii) : bool :=
  match c with
  | " " | "009" | "010" | "011" | "012" | "013" => true
  | _ => false
  end.

(** [\d] *)
Definition is_digit (c : ascii) : bool :=
  match c with
  | "0" | "1" | "2" | "3" | "4" | "5" | "6" | "7" | "8" | "9" => true
  | _ => false
  end.

Local Open Scope string_scope.

Fixpoint trimStart (s : string) : string :=
  match s with
  | String c rest => if is_whitespace c then trimStart rest else s
  | EmptyString => EmptyString
  end.

Fixpoint reverse (s acc : string) : string :=
  match s with
  | String c rest => reverse rest (String c acc)
  | EmptyString => acc
  end.

(** [s.trim()] *)
Definition trim (s : string) : string :=
  reverse (trimStart (reverse (trimStart s) EmptyString)) EmptyString.

(** [!s]: the empty string is the only falsy string *)
Definition falsy (s : string) : bool :=
  match s with EmptyString => true | _ => false end.

(** [s.replace(pattern, replacement)] for a string pattern: the first
    occurrence only *)
Fixpoint replace (pattern replacement s : string) : string :=
  if prefix pattern s
  then replacement ++ substring (length pattern) (length s - length pattern) s
  else match s with
       | String c rest => String c (replace pattern replacement rest)
       | EmptyString => EmptyString
       end.

(** [s.replace(/(\d)x/g, '$1*x')] *)
Fixpoint replace_digit_x (s : string) : string :=
  match s with
  | String c rest =>
      match rest with
      | String "x"%char rest' =>
          if is_digit c
          then String c (String "*" (String "x" (replace_digit_x rest')))
          else String c (replace_digit_x rest)
      | _ => String c (replace_digit_x rest)
      end
  | EmptyString => EmptyString
  end.

(** [s.replace(/(x)(\d)/g, '$1^$2')] *)
Fixpoint replace_x_digit (s : string) : string :=
  match s with
  | String c rest =>
      match c, rest with
      | "x"%char, String d rest' =>
          if is_digit d
          then String "x" (String "^" (String d (replace_x_digit rest')))
          else String c (replace_x_digit rest)
      | _, _ => String c (replace_x_digit rest)
      end
  | EmptyString => EmptyString
  end.

End JsString.

(** ** graphUtils *)

Record point : Type := mkPoint { point_x : number; point_y : number }.

Definition MAX_POINTS : nat := 1000.
Definition DISCONTINUITY_THRESHOLD : number := Num 1000000.

Record validation : Type := mkValidation {
  isValid : bool;
  error : option string
}.

Section GraphUtils.

Variable math : MathJs.

(** try { const node = math.parse(expression);
          return node.compile().evaluate({ x }); }
    catch (error) { console.warn(...); return NaN; } *)
Definition evaluateExpression (expression : string) (x : number)
  : completion number :=
  try_catch
    (n <- parse math expression ;; evaluate math n x)
    (fun _ => Returns NaN).

(** [isNaN(y) || Math.abs(y) > DISCONTINUITY_THRESHOLD] *)
Definition invalid_y (y : number) : bool :=
  isNaN y || (abs y >? DISCONTINUITY_THRESHOLD)%js.

(** [previousY !== null && Math.abs(y - previousY) > DISCONTINUITY_THRESHOLD] *)
Definition jump (previousY : option number) (y : number) : bool :=
  match previousY with
  | None => false
  | Some p => (abs (y - p) >? DISCONTINUITY_THRESHOLD)%js
  end.

(** The body of the sampling loop at abscissa [x]: the new value of
    [points] and of [previousY]. *)
Definition sample (expression : string) (x : number)
  (points : list point) (previousY : option number)
  : completion (list point * option number) :=
  y <- evaluateExpression expression x ;;
  if invalid_y y then Returns (points, None)
  else
    let points :=
      if jump previousY y then points ++ [mkPoint x NaN] else points in
    Returns (points ++ [mkPoint x y], Some y).

(** for (let x = min; x <= max && points.length < MAX_POINTS; x += step)
    [None]: the loop is still running when the fuel is spent. *)
Fixpoint generatePoints_loop (fuel : nat) (expression : string)
  (max step : number) (x : number) (points : list point)
  (previousY : option number) : option (completion (list point)) :=
  match fuel with
  | O => None
  | S fuel =>
      if (x <=? max)%js && (List.length points <? MAX_POINTS)%nat then
        match sample expression x points previousY with
        | Throws m => Some (Throws m)
        | Returns (points, previousY) =>
            generatePoints_loop fuel expression max step (x + step)%js
              points previousY
        end
      else Some (Returns points)
  end.

Definition generatePoints (fuel : nat) (expression : string)
  (min max step : number) : option (completion (list point)) :=
  if JsString.falsy (JsString.trim expression) then Some (Returns [])
  else generatePoints_loop fuel expression max step min [] None.

(** [[-2, -1, 0, 1, 2].forEach(x => node.evaluate({ x }))] *)
Fixpoint forEach_evaluate (n : node math) (xs : list number)
  : completion unit :=
  match xs with
  | [] => Returns tt
  | x :: xs => _ <- evaluate math n x ;; forEach_evaluate n xs
  end.

Definition sanitize (expression : string) : string :=
  JsString.replace_x_digit (JsString.replace_digit_x expression).

Definition test_values : list number :=
  [Num (-2); Num (-1); Num 0; Num 1; Num 2].

Definition validateExpression (expression : string) : completion validation :=
  try_catch
    (if JsString.falsy (JsString.trim expression)
     then Returns (mkValidation false (Some "Empty expression"%string))
     else
       let sanitized := sanitize expression in
       n <- parse math sanitized ;;
       _ <- forEach_evaluate n test_values ;;
       Returns (mkValidation true None))
    (fun message =>
       Returns (mkValidation false
         (Some (JsString.replace "Unexpected operator" "Invalid syntax"
                  (JsString.replace "Undefined symbol" "Invalid symbol"
                     message))))).

(** GraphDisplay: try { y1 = evaluateExpression(expression, x - h);
                        y2 = evaluateExpression(expression, x + h);
                        return (y2 - y1) / (2 * h); }
                  catch (error) { console.warn(...); return null; }
    [None] is [null]. *)
Definition calculateDerivative (expression : string) (x h : number)
  : completion (option number) :=
  try_catch
    (y1 <- evaluateExpression expression (x - h)%js ;;
     y2 <- evaluateExpression expression (x + h)%js ;;
     Returns (Some ((y2 - y1) / (Num 2 * h))%js))
    (fun _ => Returns None).

End GraphUtils.

(** the default value of the parameter [h] of [calculateDerivative] *)
Definition default_h : number := Num (1 # 10000).

(** ** A stand-in for mathjs

    Expression trees of the shape mathjs builds, evaluated by a tree walk
    with the scope [{x}].  Parsing is tabulated: [parse] knows the
    expressions listed in [expressions] and nothing else, so this instance
    is only ever used at those. *)

Module SampleMath.

Local Open Scope string_scope.

Inductive operator : Type := Add | Subtract | Multiply | Divide.

Inductive ast : Type :=
| ConstantNode (value : Q)
| SymbolNode (name : string)
| OperatorNode (op : operator) (l r : ast)
| PowNode (base : ast) (exponent : nat)      (* base ^ n, n a literal *)
| SignNode (arg : ast).                      (* sign(arg) *)

Definition apply_operator (op : operator) (a b : number) : number :=
  match op with
  | Add => (a + b)%js
  | Subtract => (a - b)%js
  | Multiply => (a * b)%js
  | Divide => (a / b)%js
  end.

Fixpoint pow (a : number) (n : nat) : number :=
  match n with
  | O => Num 1
  | S n => (a * pow a n)%js
  end.

Definition sign (a : number) : number :=
  match a with
  | Num q =>
      match (q ?= 0)%Q with Gt => Num 1 | Lt => Num (-1) | Eq => Num 0 end
  | NaN => NaN
  | Infinity => Num 1
  | NegInfinity => Num (-1)
  end.

Fixpoint eval (n : ast) (x : number) : completion number :=
  match n with
  | ConstantNode value => Returns (Num value)
  | SymbolNode name =>
      if String.eqb name "x" then Returns x
      else Throws ("Undefined symbol " ++ name)
  | OperatorNode op l r =>
      a <- eval l x ;; b <- eval r x ;; Returns (apply_operator op a b)
  | PowNode base exponent => a <- eval base x ;; Returns (pow a exponent)
  | SignNode arg => a <- eval arg x ;; Returns (sign a)
  end.

Definition expressions : list (string * completion ast) :=
  [ ("x", Returns (SymbolNode "x"));
    ("1", Returns (ConstantNode 1));
    ("x^2", Returns (PowNode (SymbolNode "x") 2));
    ("x2", Returns (SymbolNode "x2"));
    ("y", Returns (SymbolNode "y"));
    ("1/x", Returns (OperatorNode Divide (ConstantNode 1) (SymbolNode "x")));
    ("600000*x",
      Returns (OperatorNode Multiply (ConstantNode 600000) (SymbolNode "x")));
    ("600000/x",
      Returns (OperatorNode Divide (ConstantNode 600000) (SymbolNode "x")));
    ("600000*sign(x-998.5)",
      Returns (OperatorNode Multiply (ConstantNode 600000)
                 (SignNode (OperatorNode Subtract (SymbolNode "x")
                              (ConstantNode (1997 # 2))))));
    ("2+", Throws "Unexpected end of expression (char 3)") ].

Fixpoint lookup (s : string) (table : list (string * completion ast))
  : completion ast :=
  match table with
  | (k, v) :: table => if String.eqb s k then v else lookup s table
  | [] => Throws "Unexpected operator"
  end.

Definition math : MathJs :=
  {| node := ast;
     parse := fun s => lookup s expressions;
     evaluate := eval |}.

End SampleMath.

(** ** GraphDisplay: viewport, bounds and coordinate maps *)

(** [{x, y}] in graph or in pixel space *)
Record coords : Type := mkCoords { x : number; y : number }.

Record Viewport : Type := mkViewport { center : coords; zoom : number }.

Record Size : Type := mkSize { width : number; height : number }.

Record Bounds : Type := mkBounds {
  xMin : number; xMax : number; yMin : number; yMax : number
}.

Definition calculateBounds (viewport : Viewport) (size : Size) : Bounds :=
  let aspect := (height size / width size)%js in
  let viewWidth := (Num 20 / zoom viewport)%js in
  let viewHeight := (viewWidth * aspect)%js in
  {| xMin := (x (center viewport) - viewWidth / Num 2)%js;
     xMax := (x (center viewport) + viewWidth / Num 2)%js;
     yMin := (y (center viewport) - viewHeight / Num 2)%js;
     yMax := (y (center viewport) + viewHeight / Num 2)%js |}.

Definition scaleX (size : Size) (gx : number) (bounds : Bounds) : number :=
  (((gx - xMin bounds) / (xMax bounds - xMin bounds)) * width size)%js.

Definition scaleY (size : Size) (gy : number) (bounds : Bounds) : number :=
  (height size
   - ((gy - yMin bounds) / (yMax bounds - yMin bounds)) * height size)%js.

Definition canvasToGraphCoords (size : Size) (canvasX canvasY : number)
  (bounds : Bounds) : coords :=
  {| x := (xMin bounds
           + (canvasX / width size) * (xMax bounds - xMin bounds))%js;
     y := (yMax bounds
           - (canvasY / height size) * (yMax bounds - yMin bounds))%js |}.

(** the pixel a graph point is drawn at *)
Definition graphToPixel (size : Size) (p : coords) (bounds : Bounds) : coords :=
  {| x := scaleX size (x p) bounds; y := scaleY size (y p) bounds |}.

(** *** Panning *)

Record MouseEvent : Type := mkMouse { clientX : number; clientY : number }.

(** [canvas.getBoundingClientRect()] *)
Record Rect : Type := mkRect { left : number; top : number }.

(** [startCenter] is missing from the object until the first mouse down *)
Record DragStart : Type := mkDrag {
  drag_x : number;
  drag_y : number;
  startCenter : option coords
}.

(** [!n] for a number: zero and NaN are falsy *)
Definition falsy_number (n : number) : bool :=
  match n with
  | Num q => Qeq_bool q 0
  | NaN => true
  | _ => false
  end.

Definition handleMouseDown (viewport : Viewport) (e : MouseEvent) : DragStart :=
  {| drag_x := clientX e; drag_y := clientY e;
     startCenter := Some (center viewport) |}.

(** The viewport handed to [onViewportChange], [None] when the handler
    returns without calling it. *)
Definition handleMouseMove (dragStart : DragStart) (viewport : Viewport)
  (size : Size) (e : MouseEvent) : option Viewport :=
  if falsy_number (drag_x dragStart) then None
  else
    match startCenter dragStart with
    | None => None
    | Some c =>
        let dx := ((clientX e - drag_x dragStart)
                   * (zoom viewport / width size))%js in
        let dy := ((drag_y dragStart - clientY e)
                   * (zoom viewport / height size))%js in
        Some {| center := {| x := (x c - dx * Num 20)%js;
                             y := (y c - dy * Num 20)%js |};
                zoom := zoom viewport |}
    end.

(** The graph point under the cursor, as [handleCanvasClick] computes it. *)
Definition graphPointAt (rect : Rect) (viewport : Viewport) (size : Size)
  (e : MouseEvent) : coords :=
  let canvasX := (clientX e - left rect)%js in
  let canvasY := (clientY e - top rect)%js in
  canvasToGraphCoords size canvasX canvasY (calculateBounds viewport size).

(** ** GraphingTool and GraphControls: the application state *)

Record App : Type := mkApp {
  viewport : Viewport;
  zoomLevel : number;           (* the separate [zoomLevel] state *)
  dragStart : DragStart;
  size : Size
}.

Definition initial : App :=
  {| viewport := {| center := {| x := Num 0; y := Num 0 |}; zoom := Num 1 |};
     zoomLevel := Num 1;
     dragStart := {| drag_x := Num 0; drag_y := Num 0; startCenter := None |};
     size := {| width := Num 800; height := Num 600 |} |}.

(** [Math.max(0.5, Math.min(2.0, newZoom))] *)
Definition clamp (newZoom : number) : number :=
  max (Num (1 # 2)) (min (Num 2) newZoom).

(** the [setZoomLevel] prop that GraphingTool hands to GraphControls *)
Definition setZoomLevel (newZoom : number) (app : App) : App :=
  {| viewport := {| center := center (viewport app); zoom := clamp newZoom |};
     zoomLevel := zoomLevel app;
     dragStart := dragStart app;
     size := size app |}.

(** GraphControls; [value] is the number [parseFloat] reads *)
Definition handleZoomChange (value : number) (app : App) : App :=
  let newZoom := value in
  setZoomLevel (clamp newZoom) app.

Definition handleViewportChange (newViewport : Viewport) (app : App) : App :=
  {| viewport := newViewport;
     zoomLevel := zoom newViewport;
     dragStart := dragStart app;
     size := size app |}.

Definition resetView (app : App) : App :=
  {| viewport := {| center := {| x := Num 0; y := Num 0 |}; zoom := Num 1 |};
     zoomLevel := zoomLevel app;
     dragStart := dragStart app;
     size := size app |}.

Inductive Event : Type :=
| ZoomOutButton                        (* handleZoomChange(zoomLevel - 0.1) *)
| ZoomInButton                         (* handleZoomChange(zoomLevel + 0.1) *)
| ZoomSlider (value : number)          (* handleZoomChange(e.target.value) *)
| ResetView
| MouseDown (e : MouseEvent)
| MouseMove (e : MouseEvent)
| MouseUp
| Resize (s : Size).

Definition dispatch (app : App) (ev : Event) : App :=
  match ev with
  | ZoomOutButton =>
      handleZoomChange (zoom (viewport app) - Num (1 # 10))%js app
  | ZoomInButton =>
      handleZoomChange (zoom (viewport app) + Num (1 # 10))%js app
  | ZoomSlider value => handleZoomChange value app
  | ResetView => resetView app
  | MouseDown e =>
      {| viewport := viewport app;
         zoomLevel := zoomLevel app;
         dragStart := handleMouseDown (viewport app) e;
         size := size app |}
  | MouseMove e =>
      match handleMouseMove (dragStart app) (viewport app) (size app) e with
      | Some v => handleViewportChange v app
      | None => app
      end
  | MouseUp =>
      handleViewportChange (viewport app)
        {| viewport := viewport app;
           zoomLevel := zoomLevel app;
           dragStart := {| drag_x := Num 0; drag_y := Num 0;
                           startCenter := None |};
           size := size app |}
  | Resize s =>
      {| viewport := viewport app;
         zoomLevel := zoomLevel app;
         dragStart := dragStart app;
         size := s |}
  end.

Definition run (app : App) (events : list Event) : App :=
  fold_left dispatch events app.

(** [lo <= n && n <= hi] *)
Definition within (lo hi n : number) : bool := (lo <=? n)%js && (n <=? hi)%js.

Definition zoom_in_range (n : number) : bool := within (Num (1 # 2)) (Num 2) n.

(** ** Properties of point sequences and of panning *)

(** [R] holds between every element and the next one *)
Fixpoint adjacent {A : Type} (R : A -> A -> Prop) (l : list A) : Prop :=
  match l with
  | a :: rest =>
      match rest with
      | b :: _ => R a b /\ adjacent R rest
      | [] => True
      end
  | [] => True
  end.

Fixpoint last_point {A : Type} (l : list A) : option A :=
  match l with
  | [] => None
  | a :: rest => match rest with [] => Some a | _ => last_point rest end
  end.

(** [y] is a plotted ordinate: finite and at most the threshold in size *)
Definition plottable (y : number) : Prop :=
  isFinite y = true /\ (abs y <=? DISCONTINUITY_THRESHOLD)%js = true.

Definition strictly_increasing_x (pts : list point) : Prop :=
  forall i p q,
    nth_error pts i = Some p -> nth_error pts (S i) = Some q ->
    (point_x p <? point_x q)%js = true.

Definition nondecreasing_x (pts : list point) : Prop :=
  forall i p q,
    nth_error pts i = Some p -> nth_error pts (S i) = Some q ->
    (point_x p <=? point_x q)%js = true.

(** equal abscissas only from a break marker to the point it announces *)
Definition increasing_between_samples (pts : list point) : Prop :=
  forall i p q,
    nth_error pts i = Some p -> nth_error pts (S i) = Some q ->
    isNaN (point_y p) = false -> (point_x p <? point_x q)%js = true.

(** every break marker is directly followed by a plotted point at its [x] *)
Definition breaks_followed (pts : list point) : Prop :=
  forall i p,
    nth_error pts i = Some p -> isNaN (point_y p) = true ->
    exists q, nth_error pts (S i) = Some q
              /\ point_x q = point_x p /\ plottable (point_y q).

(** the relation the sampling loop keeps between neighbours *)
Definition neighbours (p q : point) : Prop :=
  if isNaN (point_y p)
  then point_x q = point_x p /\ plottable (point_y q)
  else True.

(** loop invariant for the break markers: neighbours are related and the
    last point pushed is not a marker *)
Definition marked (a : number) (points : list point)
  (previousY : option number) : Prop :=
  adjacent neighbours points
  /\ forall p, last_point points = Some p -> isNaN (point_y p) = false.

(** loop invariants for the order of the abscissas: [a] is the loop
    variable, ahead of every point pushed so far *)
Definition ordered (a : number) (points : list point)
  (previousY : option number) : Prop :=
  adjacent (fun p q => (point_x p <=? point_x q)%js = true) points
  /\ (isNaN a = false ->
      forall p, last_point points = Some p -> (point_x p <=? a)%js = true).

Definition strictly_ordered (a : number) (points : list point)
  (previousY : option number) : Prop :=
  isFinite a = true
  /\ adjacent (fun p q => isNaN (point_y p) = false ->
                          (point_x p <? point_x q)%js = true) points
  /\ (forall p, last_point points = Some p -> (point_x p <? a)%js = true).

(** a tracked [previousY] is the ordinate of the last point pushed *)
Definition tracks (points : list point) (previousY : option number) : Prop :=
  forall p, previousY = Some p ->
            exists pt, last_point points = Some pt /\ point_y pt = p.

(** an upper bound on the number of iterations from [x] on, for finite
    arguments and a positive step *)
Definition iterations (max step x : number) : nat :=
  match max, step, x with
  | Num m, Num s, Num a => Z.to_nat (Qfloor ((m - a) / s) + 1)
  | _, _, _ => O
  end.

Definition enough_fuel (min max step : number) : nat :=
  S (iterations max step min).

(** what screen-anchored panning asks: the graph point under the cursor is
    the same before and after the drag *)
Definition anchored (rect : Rect) (size : Size) (before after : Viewport)
  (down move : MouseEvent) : Prop :=
  num_eq (x (graphPointAt rect after size move))
         (x (graphPointAt rect before size down))
  /\ num_eq (y (graphPointAt rect after size move))
            (y (graphPointAt rect before size down)).

Definition coords_eq (p q : coords) : Prop :=
  num_eq (x p) (x q) /\ num_eq (y p) (y q).

(** the zoom requests the controls can make: the slider of an HTML range
    input always carries a numeric string, so [parseFloat] reads a number *)
Definition numeric_event (ev : Event) : Prop :=
  match ev with
  | ZoomSlider value => isNaN value = false
  | _ => True
  end.

Definition zoom_invariant (app : App) : Prop :=
  zoom_in_range (zoom (viewport app)) = true
  /\ zoom_in_range (zoomLevel app) = true.

(** ** Concrete inputs *)

(** jumps from -600000 to 600000 between x = 998 and x = 999 *)
Definition jump_at_999 : string := "600000*sign(x-998.5)".

(** the sequence sampled for "600000*x" from -1 to 1 in steps of 2 *)
Definition broken_line : list point :=
  [ mkPoint (Num (-1)) (Num (-600000));
    mkPoint (Num 1) NaN;
    mkPoint (Num 1) (Num 600000) ].

(** a square canvas at the client origin, zoomed in twice, dragged 64 pixels
    to the right from its middle *)
Definition square_canvas : Size := mkSize (Num 512) (Num 512).
Definition at_origin : Rect := mkRect (Num 0) (Num 0).
Definition zoomed_in : Viewport :=
  mkViewport (mkCoords (Num 0) (Num 0)) (Num 2).
Definition press : MouseEvent := mkMouse (Num 256) (Num 256).
Definition drag_right : MouseEvent := mkMouse (Num 320) (Num 256).
Definition panned : Viewport :=
  mkViewport (mkCoords (Num (-5)) (Num 0)) (Num 2).

(** the default 800 x 600 canvas at zoom 1, dragged 60 pixels down *)
Definition default_canvas : Size := mkSize (Num 800) (Num 600).
Definition unzoomed : Viewport :=
  mkViewport (mkCoords (Num 0) (Num 0)) (Num 1).
Definition press_default : MouseEvent := mkMouse (Num 400) (Num 300).
Definition drag_down : MouseEvent := mkMouse (Num 400) (Num 360).

(** a session: slide the zoom to 3, press zoom-in, drag, release *)
Definition session : list Event :=
  [ ZoomSlider (Num 3); ZoomInButton; MouseDown press; MouseMove drag_right;
    MouseUp; ZoomOutButton ].

(** ** More properties of the sampler *)

(** every character is white space: [s.trim()] is empty *)
Fixpoint blank (s : string) : bool :=
  match s with
  | String c rest => JsString.is_whitespace c && blank rest
  | EmptyString => true
  end.

(** [p] was sampled on the curve of [expression], inside the range *)
Definition on_curve (math : MathJs) (expression : string) (max : number)
  (p : point) : Prop :=
  (point_x p <=? max)%js = true
  /\ (isNaN (point_y p) = false ->
      evaluateExpression math expression (point_x p) = Returns (point_y p)
      /\ plottable (point_y p)).

(** the expression has a plottable value all over [[min, max]] *)
Definition plottable_on (math : MathJs) (expression : string)
  (min max : number) : Prop :=
  forall a, (min <=? a)%js = true -> (a <=? max)%js = true ->
            exists v, evaluateExpression math expression a = Returns v
                      /\ plottable v.

(** [a] is the [k]-th abscissa of the sampling grid *)
Definition grid_point (m s : Q) (k : nat) (a : number) : Prop :=
  num_eq a (Num (m + inject_Z (Z.of_nat k) * s)).

(** loop invariants *)
Definition sampled (math : MathJs) (expression : string) (max : number)
  (a : number) (points : list point) (previousY : option number) : Prop :=
  Forall (on_curve math expression max) points.

Definition in_range (min max : number)
  (a : number) (points : list point) (previousY : option number) : Prop :=
  (isNaN a = false -> (min <=? a)%js = true)
  /\ Forall (fun p => (min <=? point_x p)%js = true
                      /\ (point_x p <=? max)%js = true) points.

Definition on_grid (m s : Q)
  (a : number) (points : list point) (previousY : option number) : Prop :=
  (exists n, grid_point m s n a)
  /\ Forall (fun p => exists k, grid_point m s k (point_x p)) points.

(** every iteration so far has pushed a point: the [n]-th iteration starts
    with at least [n] points *)
Definition dense (m s : Q)
  (a : number) (points : list point) (previousY : option number) : Prop :=
  (exists n, grid_point m s n a /\ (n <= List.length points)%nat)
  /\ Forall (fun p => exists k, (k < MAX_POINTS)%nat
                                /\ grid_point m s k (point_x p)) points.

(** GraphDisplay, the drawing effect: the points sampled for one equation,
    [generatePoints(eq.expression, bounds.xMin - 1, bounds.xMax + 1,
    0.02 / zoomLevel)] *)
Definition renderedPoints (math : MathJs) (fuel : nat) (viewport : Viewport)
  (size : Size) (zoomLevel : number) (expression : string)
  : option (completion (list point)) :=
  let bounds := calculateBounds viewport size in
  generatePoints math fuel expression
    (xMin bounds - Num 1)%js (xMax bounds + Num 1)%js
    (Num (2 # 100) / zoomLevel)%js.

(** ** More properties of the validator *)

Definition is_x (c : ascii) : bool := Ascii.eqb c "x".

(** some character satisfying [P] is directly followed by one satisfying
    [Q] *)
Fixpoint adjacent_chars (P Q : ascii -> bool) (s : string) : bool :=
  match s with
  | String c rest =>
      match rest with
      | String d _ => (P c && Q d) || adjacent_chars P Q rest
      | EmptyString => false
      end
  | EmptyString => false
  end.

(** no digit next to an [x]: neither regular expression of the validator
    matches *)
Definition plain (expression : string) : bool :=
  negb (adjacent_chars JsString.is_digit is_x expression)
  && negb (adjacent_chars is_x JsString.is_digit expression).

(** ** graphUtils: the bounds of a point sequence *)

Module graphUtils.

(** [!isNaN(p.y) && isFinite(p.y)] *)
Definition safe (p : point) : bool :=
  negb (isNaN (point_y p)) && isFinite (point_y p).

Definition initial : Bounds :=
  {| xMin := Infinity; xMax := NegInfinity;
     yMin := Infinity; yMax := NegInfinity |}.

(** the reducer of [safePoints.reduce] *)
Definition reducer (acc : Bounds) (p : point) : Bounds :=
  {| xMin := min (xMin acc) (point_x p);
     xMax := max (xMax acc) (point_x p);
     yMin := min (yMin acc) (point_y p);
     yMax := max (yMax acc) (point_y p) |}.

(** [a || b] on numbers *)
Definition or_else (a b : number) : number :=
  if falsy_number a then b else a.

(** [a === b] on numbers *)
Definition strict_equal (a b : number) : bool :=
  match a, b with
  | Num p, Num q => Qeq_bool p q
  | Infinity, Infinity | NegInfinity, NegInfinity => true
  | _, _ => false
  end.

Definition calculateBounds (points : list point) (padding : number)
  : Bounds :=
  let safePoints := filter safe points in
  if (List.length safePoints =? 0)%nat then
    {| xMin := Num (-10); xMax := Num 10; yMin := Num (-10); yMax := Num 10 |}
  else
    let bounds := fold_left reducer safePoints initial in
    let xRange := or_else (xMax bounds - xMin bounds)%js (Num 10) in
    let yRange := or_else (yMax bounds - yMin bounds)%js (Num 10) in
    if strict_equal (yMin bounds) (yMax bounds) then
      {| xMin := (xMin bounds - xRange * padding)%js;
         xMax := (xMax bounds + xRange * padding)%js;
         yMin := (yMin bounds - Num 5)%js;
         yMax := (yMax bounds + Num 5)%js |}
    else
      {| xMin := (xMin bounds - xRange * padding)%js;
         xMax := (xMax bounds + xRange * padding)%js;
         yMin := (yMin bounds - yRange * padding)%js;
         yMax := (yMax bounds + yRange * padding)%js |}.

(** the default value of [padding] *)
Definition default_padding : number := Num (1 # 10).

End graphUtils.

(** the points have finite coordinates *)
Definition finite_point (p : point) : Prop :=
  isFinite (point_x p) = true /\ isFinite (point_y p) = true.

Definition inside (b : Bounds) (p : point) : Prop :=
  (xMin b <=? point_x p)%js = true /\ (point_x p <=? xMax b)%js = true
  /\ (yMin b <=? point_y p)%js = true /\ (point_y p <=? yMax b)%js = true.

(** the accumulator of the reduction spans exactly the points seen *)
Definition spans (b : Bounds) (seen : list point) : Prop :=
  exists x0 x1 y0 y1,
    b = mkBounds (Num x0) (Num x1) (Num y0) (Num y1)
    /\ x0 <= x1 /\ y0 <= y1
    /\ Forall (inside b) seen.

(** ** More properties of the viewport *)

(** the events of the zoom controls and of the reset button *)
Definition control_event (ev : Event) : Prop :=
  match ev with
  | ZoomOutButton | ZoomInButton | ZoomSlider _ | ResetView => True
  | _ => False
  end.

(** press at [a], drag to [b], release *)
Definition drag (a b : MouseEvent) : list Event :=
  [MouseDown a; MouseMove b; MouseUp].

(** ** GraphDisplay: clicks and the tangent *)

(** the fields of an equation that the click handler reads *)
Record Equation : Type := mkEquation {
  eq_expression : string;
  eq_color : string;
  eq_visible : bool
}.

(** [closestPoint]: [{x, y, equation, color}] *)
Record ClosestPoint : Type := mkClosest {
  cp_x : number;
  cp_y : number;
  cp_equation : string;
  cp_color : string
}.

(** [tangentPoint]: [{...closestPoint, derivative}] *)
Record TangentPoint : Type := mkTangent {
  anchor : ClosestPoint;
  derivative : number
}.

(** the state of the search: [closestPoint] (null at first) and
    [minDistance] (Infinity at first) *)
Definition Search : Type := (option ClosestPoint * number)%type.

Definition closest_of (eq : Equation) (p : point) : ClosestPoint :=
  {| cp_x := point_x p; cp_y := point_y p;
     cp_equation := eq_expression eq; cp_color := eq_color eq |}.

Section HitTest.

Variable math : MathJs.

(** [Math.sqrt], a function of the host *)
Variable sqrt : number -> number.

(** [Math.pow(a, 2)] *)
Definition pow2 (a : number) : number := (a * a)%js.

(** [Math.sqrt(Math.pow(point.x - graphCoords.x, 2)
              + Math.pow(point.y - graphCoords.y, 2))] *)
Definition distance (graphCoords : coords) (p : point) : number :=
  sqrt (pow2 (point_x p - x graphCoords) + pow2 (point_y p - y graphCoords))%js.

(** the body of [points.forEach] *)
Definition visit_point (eq : Equation) (graphCoords : coords)
  (st : Search) (p : point) : Search :=
  if isNaN (point_y p) then st
  else
    let d := distance graphCoords p in
    if (d <? snd st)%js then (Some (closest_of eq p), d) else st.

(** the body of [equations.forEach] *)
Definition visit_equation (fuel : nat) (graphCoords : coords)
  (st : Search) (eq : Equation) : option (completion Search) :=
  if negb (eq_visible eq) then Some (Returns st)
  else
    match generatePoints math fuel (eq_expression eq)
            (x graphCoords - Num (1 # 10))%js
            (x graphCoords + Num (1 # 10))%js (Num (1 # 100)) with
    | None => None
    | Some (Throws m) => Some (Throws m)
    | Some (Returns points) =>
        Some (Returns (fold_left (visit_point eq graphCoords) points st))
    end.

Fixpoint forEach_equation (fuel : nat) (graphCoords : coords)
  (equations : list Equation) (st : Search) : option (completion Search) :=
  match equations with
  | [] => Some (Returns st)
  | eq :: equations =>
      match visit_equation fuel graphCoords st eq with
      | Some (Returns st) => forEach_equation fuel graphCoords equations st
      | other => other
      end
  end.

(** The new value of the [tangentPoint] state after a click; the canvas is
    mounted and [rect] is its bounding rectangle. *)
Definition handleCanvasClick (fuel : nat) (rect : Rect) (viewport : Viewport)
  (size : Size) (equations : list Equation) (e : MouseEvent)
  (tangentPoint : option TangentPoint)
  : option (completion (option TangentPoint)) :=
  let graphCoords := graphPointAt rect viewport size e in
  match forEach_equation fuel graphCoords equations (None, Infinity) with
  | None => None
  | Some (Throws m) => Some (Throws m)
  | Some (Returns (closestPoint, minDistance)) =>
      match closestPoint with
      | Some c =>
          if (minDistance <? Num (1 # 2))%js then
            match calculateDerivative math (cp_equation c) (cp_x c)
                    default_h with
            | Throws m => Some (Throws m)
            | Returns (Some d) => Some (Returns (Some (mkTangent c d)))
            | Returns None => Some (Returns tangentPoint)
            end
          else Some (Returns None)
      | None => Some (Returns None)
      end
  end.

End HitTest.

(** [drawTangentLine] starts with [if (!point || !point.derivative) return]:
    whether it goes on to draw *)
Definition drawTangentLine_draws (point : option TangentPoint) : bool :=
  match point with
  | Some t => negb (falsy_number (derivative t))
  | None => false
  end.

(** the sampled points of the visible equations that the search compares,
    in the order it visits them *)
Definition candidate : Type := (Equation * point)%type.

Definition visit (sqrt : number -> number) (graphCoords : coords)
  (st : Search) (c : candidate) : Search :=
  let d := distance sqrt graphCoords (snd c) in
  if (d <? snd st)%js then (Some (closest_of (fst c) (snd c)), d) else st.

(** [c] is a point with a value, sampled around the click for a visible
    equation of the list *)
Definition sampled_candidate (math : MathJs) (fuel : nat)
  (graphCoords : coords) (equations : list Equation) (c : candidate) : Prop :=
  In (fst c) equations /\ eq_visible (fst c) = true
  /\ isNaN (point_y (snd c)) = false
  /\ exists points,
       generatePoints math fuel (eq_expression (fst c))
         (x graphCoords - Num (1 # 10))%js
         (x graphCoords + Num (1 # 10))%js (Num (1 # 100))
       = Some (Returns points)
       /\ In (snd c) points.

(** ** Concrete inputs, continued *)

(** A stand-in for [Math.sqrt]: the root of [n / d] rounded down to a
    multiple of [1 / d], exact on the squares of such multiples. *)
Definition sample_sqrt (a : number) : number :=
  match a with
  | Num q =>
      if Qltb q 0 then NaN
      else Num (Z.sqrt (Qnum q * Zpos (Qden q)) # Qden q)
  | Infinity => Infinity
  | NaN | NegInfinity => NaN
  end.

Definition identity_line : Equation := mkEquation "x" "#1E88E5" true.
Definition hidden_line : Equation := mkEquation "x" "#1E88E5" false.

(** the constant 1 sampled from 0 to 3 *)
Definition constant_line : list point :=
  [ mkPoint (Num 0) (Num 1); mkPoint (Num 1) (Num 1);
    mkPoint (Num 2) (Num 1); mkPoint (Num 3) (Num 1) ].

(** ** The sampler in the words of the specification *)

(** A string of ASCII characters.  On these [JsString.trim] removes exactly
    what [String.prototype.trim] removes: the white space and line
    terminators of ECMAScript below 128 are the six characters of
    [JsString.is_whitespace]; the others (U+00A0, U+FEFF, U+2028, ...) are
    not ASCII. *)
Definition is_ascii (c : ascii) : bool :=
  match c with Ascii _ _ _ _ _ _ _ high => negb high end.

Fixpoint ascii_only (s : string) : bool :=
  match s with
  | String c rest => is_ascii c && ascii_only rest
  | EmptyString => true
  end.

(** One pass of the loop: the abscissa and the value of the expression
    there. *)
Record reading := mkReading { reading_x : number; reading_y : number }.

(** [rs] are the readings of the expression at [a], [a + step],
    [a + step + step], ... in this order, and [next] is the abscissa after
    the last of them. *)
Fixpoint readings_from (math : MathJs) (expression : string)
  (step a : number) (rs : list reading) (next : number) : Prop :=
  match rs with
  | [] => next = a
  | r :: rs =>
      reading_x r = a
      /\ evaluateExpression math expression a = Returns (reading_y r)
      /\ readings_from math expression step (a + step)%js rs next
  end.

(** What the specification has emitted for a run of readings.  [tracked] is
    the ordinate of the reading directly before, when that reading was
    emitted; it is [None] at the start and after a reading that was skipped.
    - a reading whose value is NaN or above 1e6 in size emits nothing and
      resets the tracking;
    - any other reading emits its point, preceded by one NaN marker at the
      same abscissa when the tracked ordinate is more than 1e6 away. *)
Fixpoint emitted (tracked : option number) (rs : list reading)
  : list point :=
  match rs with
  | [] => []
  | r :: rs =>
      let y := reading_y r in
      if isNaN y || (abs y >? DISCONTINUITY_THRESHOLD)%js
      then emitted None rs
      else
        (if match tracked with
            | Some p => (abs (y - p) >? DISCONTINUITY_THRESHOLD)%js
            | None => false
            end
         then [mkPoint (reading_x r) NaN] else [])
        ++ mkPoint (reading_x r) y :: emitted (Some y) rs
  end.

(** The first half of C2 read by the letter, with the previously emitted
    [y] the ordinate of the point before in the sequence: two plotted points
    next to each other are never more than 1e6 apart, since a marker would
    stand between them. *)
Definition jumps_marked (pts : list point) : Prop :=
  forall i p q,
    nth_error pts i = Some p -> nth_error pts (S i) = Some q ->
    plottable (point_y p) -> plottable (point_y q) ->
    (abs (point_y q - point_y p) >? DISCONTINUITY_THRESHOLD)%js = false.

(** Integer bounds and an integer step of at least 1, all within 2^52 in
    size: every abscissa the loop reaches is an integer below 2^53, so
    [x += step] is exact in double precision as it is here. *)
Definition exact_grid (min max step : number) : Prop :=
  exists m M s : Z,
    min = Num (inject_Z m) /\ max = Num (inject_Z M)
    /\ step = Num (inject_Z s)
    /\ (1 <= s <= 2 ^ 52)%Z
    /\ (- 2 ^ 52 <= m <= 2 ^ 52)%Z /\ (- 2 ^ 52 <= M <= 2 ^ 52)%Z.

(** * Verification *)

(** ** Numbers *)

Lemma Qltb_lt (p q : Q) : Qltb p q = true <-> p < q.
Proof.
  unfold Qltb. rewrite negb_true_iff, <- not_true_iff_false, Qle_bool_iff.
  split; [apply Qnot_le_lt | apply Qlt_not_le].
Qed.

Lemma Qeq_bool_false (q : Q) : ~ q == 0 -> Qeq_bool q 0 = false.
Proof.
  intros H. apply not_true_iff_false. intros E. apply H.
  now apply Qeq_bool_iff.
Qed.

Lemma div_Num (p q : Q) : ~ q == 0 -> (Num p / Num q)%js = Num (p / q).
Proof. intros H. simpl. now rewrite Qeq_bool_false. Qed.

Lemma invalid_y_false (v : number) : invalid_y v = false <-> plottable v.
Proof.
  unfold invalid_y, plottable, gtb, DISCONTINUITY_THRESHOLD.
  destruct v as [q| | |]; simpl;
    try (split; [discriminate | intros [? ?]; discriminate]).
  unfold Qltb. rewrite negb_false_iff. tauto.
Qed.

(** ** graphUtils *)

Section GraphUtilsFacts.

Variable math : MathJs.

Lemma evaluateExpression_returns (expression : string) (a : number) :
  exists v, evaluateExpression math expression a = Returns v.
Proof.
  unfold evaluateExpression, try_catch, bind.
  destruct (parse math expression) as [n|m]; [|now exists NaN].
  destruct (evaluate math n a) as [v|m]; [now exists v | now exists NaN].
Qed.

(** C3: [evaluateExpression] always returns a number and never throws; when
    parsing throws, or evaluating the parsed node throws (undefined symbol,
    runtime error), the number returned is NaN; when both succeed it is the
    value mathjs computed. *)
Theorem evaluateExpression_never_throws (expression : string) (a : number) :
  (exists v, evaluateExpression math expression a = Returns v)
  /\ (forall m, parse math expression = Throws m ->
        evaluateExpression math expression a = Returns NaN)
  /\ (forall n m, parse math expression = Returns n ->
        evaluate math n a = Throws m ->
        evaluateExpression math expression a = Returns NaN)
  /\ (forall n v, parse math expression = Returns n ->
        evaluate math n a = Returns v ->
        evaluateExpression math expression a = Returns v).
Proof.
  split; [apply evaluateExpression_returns|].
  unfold evaluateExpression, try_catch, bind.
  split; [|split].
  - intros m Hp. now rewrite Hp.
  - intros n m Hp He. now rewrite Hp, He.
  - intros n v Hp He. now rewrite Hp, He.
Qed.

Lemma sample_cases (expression : string) (a : number) (points : list point)
  (previousY : option number) :
  exists v, evaluateExpression math expression a = Returns v
  /\ sample math expression a points previousY =
     Returns
       (if invalid_y v then (points, None)
        else if jump previousY v
             then (points ++ [mkPoint a NaN; mkPoint a v], Some v)
             else (points ++ [mkPoint a v], Some v)).
Proof.
  destruct (evaluateExpression_returns expression a) as [v Hv].
  exists v. split; [exact Hv|].
  unfold sample. rewrite Hv. simpl.
  destruct (invalid_y v); [reflexivity|].
  destruct (jump previousY v); [|reflexivity].
  now rewrite <- app_assoc.
Qed.

Lemma loop_unfold (fuel : nat) (expression : string) (max step a : number)
  (points : list point) (previousY : option number) (v : number) :
  (a <=? max)%js = true -> (List.length points < MAX_POINTS)%nat ->
  evaluateExpression math expression a = Returns v ->
  generatePoints_loop math (S fuel) expression max step a points previousY =
  let '(points', previousY') :=
    if invalid_y v then (points, None)
    else if jump previousY v
         then (points ++ [mkPoint a NaN; mkPoint a v], Some v)
         else (points ++ [mkPoint a v], Some v) in
  generatePoints_loop math fuel expression max step (a + step)%js
    points' previousY'.
Proof.
  intros Hle Hlen Hv. simpl generatePoints_loop at 1.
  rewrite Hle. apply Nat.ltb_lt in Hlen. rewrite Hlen. simpl andb. cbv iota.
  destruct (sample_cases expression a points previousY) as [w [Hw Hs]].
  rewrite Hv in Hw. injection Hw as <-. rewrite Hs.
  destruct (invalid_y v); [reflexivity|].
  destruct (jump previousY v); reflexivity.
Qed.

Lemma loop_exit (fuel : nat) (expression : string) (max step a : number)
  (points : list point) (previousY : option number) :
  (a <=? max)%js && (List.length points <? MAX_POINTS)%nat = false ->
  generatePoints_loop math (S fuel) expression max step a points previousY =
  Some (Returns points).
Proof. intros H. simpl. now rewrite H. Qed.

(** The invariant rule of the sampling loop: a property of the loop state
    that every iteration keeps holds of the state the loop exits in. *)
Lemma loop_invariant (expression : string) (max step : number)
  (Inv : number -> list point -> option number -> Prop) :
  (forall a points previousY v,
      Inv a points previousY ->
      (a <=? max)%js = true -> (List.length points < MAX_POINTS)%nat ->
      evaluateExpression math expression a = Returns v ->
      (invalid_y v = true -> Inv (a + step)%js points None)
      /\ (invalid_y v = false -> jump previousY v = true ->
          Inv (a + step)%js (points ++ [mkPoint a NaN; mkPoint a v]) (Some v))
      /\ (invalid_y v = false -> jump previousY v = false ->
          Inv (a + step)%js (points ++ [mkPoint a v]) (Some v))) ->
  forall fuel a points previousY out,
    Inv a points previousY ->
    generatePoints_loop math fuel expression max step a points previousY
    = Some (Returns out) ->
    exists a' previousY', Inv a' out previousY'.
Proof.
  intros Hstep.
  induction fuel as [|fuel IH]; intros a points previousY out HI Hrun.
  - discriminate.
  - destruct ((a <=? max)%js && (List.length points <? MAX_POINTS)%nat) eqn:G.
    + apply andb_true_iff in G. destruct G as [Hle Hlen].
      apply Nat.ltb_lt in Hlen.
      destruct (evaluateExpression_returns expression a) as [v Hv].
      rewrite (loop_unfold fuel _ _ _ _ _ _ v Hle Hlen Hv) in Hrun.
      destruct (Hstep a points previousY v HI Hle Hlen Hv) as [H1 [H2 H3]].
      destruct (invalid_y v).
      * eapply IH; [apply H1; reflexivity | exact Hrun].
      * destruct (jump previousY v).
        -- eapply IH; [apply H2; reflexivity | exact Hrun].
        -- eapply IH; [apply H3; reflexivity | exact Hrun].
    + rewrite loop_exit in Hrun by exact G.
      injection Hrun as <-. now exists a, previousY.
Qed.

Lemma loop_never_throws (expression : string) (max step : number) :
  forall fuel a points previousY m,
    generatePoints_loop math fuel expression max step a points previousY
    <> Some (Throws m).
Proof.
  induction fuel as [|fuel IH]; intros a points previousY m; [discriminate|].
  destruct ((a <=? max)%js && (List.length points <? MAX_POINTS)%nat) eqn:G.
  - apply andb_true_iff in G. destruct G as [Hle Hlen].
    apply Nat.ltb_lt in Hlen.
    destruct (evaluateExpression_returns expression a) as [v Hv].
    rewrite (loop_unfold fuel _ _ _ _ _ _ v Hle Hlen Hv).
    destruct (invalid_y v); [apply IH|].
    destruct (jump previousY v); apply IH.
  - rewrite loop_exit by exact G. discriminate.
Qed.

(** Points once pushed stay: the result extends [points]. *)
Lemma loop_extends (expression : string) (max step : number) :
  forall fuel a points previousY out,
    generatePoints_loop math fuel expression max step a points previousY
    = Some (Returns out) ->
    exists rest, out = points ++ rest.
Proof.
  intros fuel a points previousY out Hrun.
  destruct (loop_invariant expression max step
              (fun _ pts _ => exists rest, pts = points ++ rest))
    with (fuel := fuel) (a := a) (points := points) (previousY := previousY)
         (out := out) as [_ [_ H]]; auto.
  - intros b pts prev v [rest ->] _ _ _. repeat split; intros.
    + now exists rest.
    + exists (rest ++ [mkPoint b NaN; mkPoint b v]). now rewrite app_assoc.
    + exists (rest ++ [mkPoint b v]). now rewrite app_assoc.
  - exists []. now rewrite app_nil_r.
Qed.

End GraphUtilsFacts.

(** ** Order on numbers along the sampling loop *)

Lemma leb_trans (a b c : number) :
  (a <=? b)%js = true -> (b <=? c)%js = true -> (a <=? c)%js = true.
Proof.
  destruct a, b, c; simpl; try discriminate; try reflexivity.
  rewrite !Qle_bool_iff. apply Qle_trans.
Qed.

Lemma ltb_trans (a b c : number) :
  (a <? b)%js = true -> (b <? c)%js = true -> (a <? c)%js = true.
Proof.
  destruct a, b, c; simpl; try discriminate; try reflexivity.
  rewrite !Qltb_lt. apply Qlt_trans.
Qed.

Lemma leb_refl (a : number) : isNaN a = false -> (a <=? a)%js = true.
Proof.
  destruct a; simpl; try discriminate; try reflexivity.
  intros _. apply Qle_bool_iff, Qle_refl.
Qed.

Lemma leb_not_NaN (a b : number) : (a <=? b)%js = true -> isNaN a = false.
Proof. destruct a, b; simpl; try discriminate; reflexivity. Qed.

(** a positive step never moves the abscissa backwards *)
Lemma add_step_leb (a step : number) :
  (Num 0 <? step)%js = true -> isNaN (a + step)%js = false ->
  (a <=? a + step)%js = true.
Proof.
  destruct a as [p| | |], step as [s| | |]; simpl; try discriminate;
    try reflexivity.
  rewrite Qltb_lt, Qle_bool_iff. intros H _. lra.
Qed.

(** a finite positive step moves a finite abscissa forwards *)
Lemma add_step_ltb (p s : Q) :
  (Num 0 <? Num s)%js = true -> (Num p <? Num p + Num s)%js = true.
Proof. simpl. rewrite !Qltb_lt. intros H. lra. Qed.

(** ** Neighbouring elements *)

Lemma last_point_snoc {A : Type} (l : list A) (a : A) :
  last_point (l ++ [a]) = Some a.
Proof.
  induction l as [|b l IH]; [reflexivity|].
  simpl. destruct (l ++ [a]) eqn:E; [|exact IH].
  destruct l; discriminate.
Qed.

Lemma adjacent_snoc {A : Type} (R : A -> A -> Prop) (l : list A) (a : A) :
  adjacent R l -> (forall p, last_point l = Some p -> R p a) ->
  adjacent R (l ++ [a]).
Proof.
  induction l as [|b l IH]; intros Hadj Hlast; [exact I|].
  destruct l as [|c l].
  - simpl. split; [now apply Hlast | exact I].
  - destruct Hadj as [Hbc Hadj]. split; [exact Hbc|].
    apply IH; [exact Hadj|]. intros p Hp. apply Hlast. exact Hp.
Qed.

Lemma adjacent_nth {A : Type} (R : A -> A -> Prop) (l : list A) :
  adjacent R l ->
  forall i p q, nth_error l i = Some p -> nth_error l (S i) = Some q -> R p q.
Proof.
  induction l as [|a l IH]; intros Hadj i p q Hp Hq.
  - destruct i; discriminate.
  - destruct l as [|b l]; [destruct i; discriminate|].
    destruct Hadj as [Hab Hadj]. destruct i as [|i].
    + injection Hp as <-. injection Hq as <-. exact Hab.
    + exact (IH Hadj i p q Hp Hq).
Qed.

Lemma last_point_nth {A : Type} (l : list A) :
  forall i p, nth_error l i = Some p -> nth_error l (S i) = None ->
              last_point l = Some p.
Proof.
  induction l as [|a l IH]; intros i p Hp Hq.
  - destruct i; discriminate.
  - destruct i as [|i].
    + injection Hp as <-. destruct l; [reflexivity | discriminate].
    + destruct l as [|b l]; [destruct i; discriminate|].
      exact (IH i p Hp Hq).
Qed.

(** ** The point sampler *)

Section Sampler.

Variable math : MathJs.

Lemma generatePoints_cases (fuel : nat) (expression : string)
  (min max step : number) (pts : list point) :
  generatePoints math fuel expression min max step = Some (Returns pts) ->
  pts = []
  \/ generatePoints_loop math fuel expression max step min [] None
     = Some (Returns pts).
Proof.
  unfold generatePoints.
  destruct (JsString.falsy (JsString.trim expression)); intros H.
  - left. now injection H as <-.
  - now right.
Qed.

(** Whenever [previousY] is not null it is the [y] of the point pushed
    last: the empty start has it, and every iteration keeps it. *)
Lemma sample_tracks (expression : string) (a : number) (points : list point)
  (previousY : option number) (points' : list point)
  (previousY' : option number) :
  tracks points previousY ->
  sample math expression a points previousY = Returns (points', previousY') ->
  tracks points' previousY'.
Proof.
  intros HT Hs.
  destruct (sample_cases math expression a points previousY) as [v [_ Hv]].
  rewrite Hv in Hs. injection Hs as Hs.
  destruct (invalid_y v).
  - injection Hs as <- <-. intros p. discriminate.
  - destruct (jump previousY v); injection Hs as <- <-; intros p [= <-].
    + change (points ++ [mkPoint a NaN; mkPoint a v])
        with (points ++ [mkPoint a NaN] ++ [mkPoint a v]).
      rewrite app_assoc, last_point_snoc. now exists (mkPoint a v).
    + rewrite last_point_snoc. now exists (mkPoint a v).
Qed.

(** *** Break markers *)

Lemma plottable_not_NaN (v : number) : plottable v -> isNaN v = false.
Proof. intros [H _]. now destruct v. Qed.

Lemma marked_push (a b v : number) (points : list point)
  (previousY previousY' : option number) :
  marked a points previousY -> plottable v ->
  marked b (points ++ [mkPoint a v]) previousY'.
Proof.
  intros [Hadj Hlast] Hv. split.
  - apply adjacent_snoc; [exact Hadj|].
    intros p Hp. unfold neighbours. now rewrite (Hlast p Hp).
  - intros p. rewrite last_point_snoc. intros [= <-].
    now apply plottable_not_NaN.
Qed.

Lemma marked_push_break (a b v : number) (points : list point)
  (previousY previousY' : option number) :
  marked a points previousY -> plottable v ->
  marked b (points ++ [mkPoint a NaN; mkPoint a v]) previousY'.
Proof.
  intros [Hadj Hlast] Hv.
  change (points ++ [mkPoint a NaN; mkPoint a v])
    with (points ++ [mkPoint a NaN] ++ [mkPoint a v]).
  rewrite app_assoc. split.
  - apply adjacent_snoc.
    + apply adjacent_snoc; [exact Hadj|].
      intros p Hp. unfold neighbours. now rewrite (Hlast p Hp).
    + intros p. rewrite last_point_snoc. intros [= <-].
      unfold neighbours. simpl. now split.
  - intros p. rewrite last_point_snoc. intros [= <-].
    now apply plottable_not_NaN.
Qed.

Lemma loop_marked (expression : string) (max step : number) :
  forall fuel a points previousY out,
    marked a points previousY ->
    generatePoints_loop math fuel expression max step a points previousY
    = Some (Returns out) ->
    exists a' previousY', marked a' out previousY'.
Proof.
  apply loop_invariant.
  intros a points previousY v HI _ _ _. split; [|split]; intros.
  - exact HI.
  - eapply marked_push_break; [exact HI | now apply invalid_y_false].
  - eapply marked_push; [exact HI | now apply invalid_y_false].
Qed.

Lemma marked_breaks_followed (a : number) (points : list point)
  (previousY : option number) :
  marked a points previousY -> breaks_followed points.
Proof.
  intros [Hadj Hlast] i p Hp Hnan.
  destruct (nth_error points (S i)) as [q|] eqn:Hq.
  - exists q. split; [reflexivity|].
    pose proof (adjacent_nth _ _ Hadj i p q Hp Hq) as N.
    unfold neighbours in N. now rewrite Hnan in N.
  - pose proof (last_point_nth _ i p Hp Hq) as L.
    apply Hlast in L. congruence.
Qed.

(** *** Termination *)

Lemma iterations_decrease (M s A : Q) :
  0 < s -> A <= M ->
  (iterations (Num M) (Num s) (Num (A + s))
   < iterations (Num M) (Num s) (Num A))%nat.
Proof.
  intros Hs HA. unfold iterations.
  set (q := (M - A) / s). set (q' := (M - (A + s)) / s).
  assert (q' == q - 1) as E by (unfold q, q'; field; lra).
  assert (0 <= q) as Hq.
  { unfold q. apply Qle_shift_div_l; [exact Hs | lra]. }
  assert (0 <= Qfloor q)%Z as F0.
  { change 0%Z with (Qfloor 0). now apply Qfloor_resp_le. }
  assert (Qfloor q' < Qfloor q)%Z as F1.
  { rewrite Zlt_Qlt.
    pose proof (Qfloor_le q') as L. pose proof (Qlt_floor q) as U.
    rewrite inject_Z_plus in U. change (inject_Z 1) with 1 in U.
    lra. }
  lia.
Qed.

Lemma loop_terminates (expression : string) (M s : Q) :
  0 < s ->
  forall fuel A points previousY,
    (iterations (Num M) (Num s) (Num A) < fuel)%nat ->
    exists out,
      generatePoints_loop math fuel expression (Num M) (Num s) (Num A)
        points previousY = Some (Returns out).
Proof.
  intros Hs. induction fuel as [|fuel IH]; intros A points previousY Hfuel.
  - lia.
  - destruct ((Num A <=? Num M)%js && (List.length points <? MAX_POINTS)%nat)
      eqn:G.
    + apply andb_true_iff in G. destruct G as [Hle Hlen].
      apply Nat.ltb_lt in Hlen.
      destruct (evaluateExpression_returns math expression (Num A)) as [v Hv].
      rewrite (loop_unfold math fuel _ _ _ _ _ _ v Hle Hlen Hv).
      change (Num A + Num s)%js with (Num (A + s)).
      assert (iterations (Num M) (Num s) (Num (A + s)) < fuel)%nat as Hnext.
      { simpl in Hle. apply Qle_bool_iff in Hle.
        pose proof (iterations_decrease M s A Hs Hle). lia. }
      destruct (invalid_y v); [now apply IH|].
      destruct (jump previousY v); now apply IH.
    + rewrite loop_exit by exact G. now exists points.
Qed.

Lemma generatePoints_terminates (expression : string) (min max step : number) :
  isFinite min = true -> isFinite max = true -> isFinite step = true ->
  (Num 0 <? step)%js = true ->
  exists pts,
    generatePoints math (enough_fuel min max step) expression min max step
    = Some (Returns pts).
Proof.
  intros Hmin Hmax Hstep Hpos.
  destruct min as [A| | |], max as [M| | |], step as [s| | |];
    try discriminate.
  unfold generatePoints, enough_fuel.
  destruct (JsString.falsy (JsString.trim expression)); [now exists []|].
  apply loop_terminates; [|lia].
  simpl in Hpos. now apply Qltb_lt in Hpos.
Qed.

(** *** What is emitted *)

Lemma emitted_cons (tracked : option number) (a v : number)
  (rs : list reading) :
  emitted tracked (mkReading a v :: rs)
  = if invalid_y v then emitted None rs
    else (if jump tracked v then [mkPoint a NaN] else [])
         ++ mkPoint a v :: emitted (Some v) rs.
Proof. reflexivity. Qed.

(** The loop appends to [points] what the specification has emitted for the
    readings it took, from the tracking it started with; it takes a reading
    only while fewer than [MAX_POINTS] points are held, and it stops at the
    first abscissa above [max] or when the cap is reached. *)
Lemma loop_emits (expression : string) (max step : number) :
  forall fuel a points previousY out,
    generatePoints_loop math fuel expression max step a points previousY
    = Some (Returns out) ->
    exists rs next,
      readings_from math expression step a rs next
      /\ Forall (fun r => (reading_x r <=? max)%js = true) rs
      /\ out = points ++ emitted previousY rs
      /\ (forall k, (k < List.length rs)%nat ->
                    (List.length (points ++ emitted previousY (firstn k rs))
                     < MAX_POINTS)%nat)
      /\ ((next <=? max)%js = false \/ (MAX_POINTS <= List.length out)%nat).
Proof.
  induction fuel as [|fuel IH]; intros a points previousY out H;
    [discriminate|].
  destruct ((a <=? max)%js && (List.length points <? MAX_POINTS)%nat) eqn:G.
  - apply andb_true_iff in G. destruct G as [Hle Hlen].
    apply Nat.ltb_lt in Hlen.
    destruct (evaluateExpression_returns math expression a) as [v Hv].
    rewrite (loop_unfold math fuel expression max step a points previousY v
               Hle Hlen Hv) in H.
    destruct (invalid_y v) eqn:Hi; [|destruct (jump previousY v) eqn:Hj];
      apply IH in H; destruct H as (rs & next & Hr & Hf & Ho & Hc & He);
      exists (mkReading a v :: rs), next;
      (split; [simpl; auto|]); (split; [constructor; assumption|]).
    + split; [rewrite emitted_cons, Hi; exact Ho|]. split; [|exact He].
      intros [|k] Hk; cbn [firstn].
      * cbn [emitted]. now rewrite app_nil_r.
      * rewrite emitted_cons, Hi. apply Hc. cbn [List.length] in Hk. lia.
    + split; [rewrite emitted_cons, Hi, Hj, Ho; now rewrite <- app_assoc|].
      split; [|exact He].
      intros [|k] Hk; cbn [firstn].
      * cbn [emitted]. now rewrite app_nil_r.
      * rewrite emitted_cons, Hi, Hj.
        assert (k < List.length rs)%nat as Hk'
            by (cbn [List.length] in Hk; lia).
        specialize (Hc k Hk'). now rewrite <- app_assoc in Hc.
    + split; [rewrite emitted_cons, Hi, Hj, Ho; now rewrite <- app_assoc|].
      split; [|exact He].
      intros [|k] Hk; cbn [firstn].
      * cbn [emitted]. now rewrite app_nil_r.
      * rewrite emitted_cons, Hi, Hj.
        assert (k < List.length rs)%nat as Hk'
            by (cbn [List.length] in Hk; lia).
        specialize (Hc k Hk'). now rewrite <- app_assoc in Hc.
  - rewrite (loop_exit math fuel expression max step a points previousY G)
      in H.
    injection H as <-. exists [], a.
    split; [reflexivity|]. split; [constructor|].
    split; [now rewrite app_nil_r|].
    split; [intros k Hk; cbn [List.length] in Hk; lia|].
    apply andb_false_iff in G. destruct G as [G|G]; [now left|right].
    now apply Nat.ltb_ge in G.
Qed.

(** C2, as amended: for an expression that is not blank, every sequence
    [generatePoints] returns is what [emitted] gives for the readings of the
    expression at [min], [min + step], ... that the loop took: all of them at
    most [max], each taken while fewer than [MAX_POINTS] points were held,
    up to the first abscissa above [max] or to the cap.  So a
    reading that is NaN or above 1e6 in size emits no point and resets the
    tracking, and any other reading emits its point, with exactly one NaN
    marker at the same abscissa directly before it when the reading directly
    before was emitted too and lies more than 1e6 away; after a skipped
    reading there is no marker, however far the last emitted point is.  On
    an integer grid the call does return. *)
Theorem generatePoints_emits (expression : string) (min max step : number) :
  ascii_only expression = true ->
  JsString.falsy (JsString.trim expression) = false ->
  (forall fuel pts,
      generatePoints math fuel expression min max step = Some (Returns pts) ->
      exists rs next,
        readings_from math expression step min rs next
        /\ Forall (fun r => (reading_x r <=? max)%js = true) rs
        /\ pts = emitted None rs
        /\ (forall k, (k < List.length rs)%nat ->
                      (List.length (emitted None (firstn k rs))
                       < MAX_POINTS)%nat)
        /\ ((next <=? max)%js = false \/ (MAX_POINTS <= List.length pts)%nat))
  /\ (exact_grid min max step ->
      exists pts,
        generatePoints math (enough_fuel min max step) expression min max step
        = Some (Returns pts)).
Proof.
  intros _ Hexpr. split.
  - intros fuel pts H. unfold generatePoints in H. rewrite Hexpr in H.
    apply loop_emits in H. exact H.
  - intros (m & M & s & -> & -> & -> & Hs & _ & _).
    apply generatePoints_terminates; try reflexivity.
    simpl. apply Qltb_lt. change 0 with (inject_Z 0).
    rewrite <- Zlt_Qlt. lia.
Qed.

(** C10: in every sequence [generatePoints] returns, a point whose [y] is NaN
    is directly followed by a point with the same [x] whose [y] is finite and
    at most 1e6 in size, so a marker is never the last element; and for
    finite arguments with a positive step the call does return. *)
Theorem breaks_are_followed (expression : string) (min max step : number) :
  (forall fuel pts,
      generatePoints math fuel expression min max step = Some (Returns pts) ->
      breaks_followed pts)
  /\ (forall fuel pts i p,
      generatePoints math fuel expression min max step = Some (Returns pts) ->
      nth_error pts i = Some p -> isNaN (point_y p) = true ->
      S i <> List.length pts)
  /\ (isFinite min = true -> isFinite max = true -> isFinite step = true ->
      (Num 0 <? step)%js = true ->
      exists pts,
        generatePoints math (enough_fuel min max step) expression min max step
        = Some (Returns pts)).
Proof.
  assert (forall fuel pts,
      generatePoints math fuel expression min max step = Some (Returns pts) ->
      breaks_followed pts) as B.
  { intros fuel pts H. apply generatePoints_cases in H. destruct H as [->|H].
    - intros i p Hp. destruct i; discriminate.
    - destruct (loop_marked expression max step fuel min [] None pts)
        as [a' [prev' HI]]; [|exact H|].
      + split; [exact I | discriminate].
      + exact (marked_breaks_followed _ _ _ HI). }
  split; [exact B|]. split; [|apply generatePoints_terminates].
  intros fuel pts i p H Hp Hnan Hlast.
  destruct (B fuel pts H i p Hp Hnan) as [q [Hq _]].
  assert (nth_error pts (S i) = None) as N by (apply nth_error_None; lia).
  congruence.
Qed.

(** *** Order of the abscissas *)

Lemma loop_ordered (expression : string) (max step : number) :
  (Num 0 <? step)%js = true ->
  forall fuel a points previousY out,
    ordered a points previousY ->
    generatePoints_loop math fuel expression max step a points previousY
    = Some (Returns out) ->
    exists a' previousY', ordered a' out previousY'.
Proof.
  intros Hstep. apply loop_invariant.
  intros a points previousY v [Hadj Hlast] Hle _ _.
  pose proof (leb_not_NaN _ _ Hle) as Ha.
  specialize (Hlast Ha).
  split; [|split]; intros.
  - split; [exact Hadj|]. intros Hn p Hp.
    eapply leb_trans; [exact (Hlast p Hp) | now apply add_step_leb].
  - change (points ++ [mkPoint a NaN; mkPoint a v])
      with (points ++ [mkPoint a NaN] ++ [mkPoint a v]).
    rewrite app_assoc. split.
    + apply adjacent_snoc; [apply adjacent_snoc; [exact Hadj|exact Hlast]|].
      intros p. rewrite last_point_snoc. intros [= <-]. simpl.
      now apply leb_refl.
    + intros Hn p. rewrite last_point_snoc. intros [= <-]. simpl.
      now apply add_step_leb.
  - split.
    + apply adjacent_snoc; [exact Hadj|exact Hlast].
    + intros Hn p. rewrite last_point_snoc. intros [= <-]. simpl.
      now apply add_step_leb.
Qed.

Lemma loop_strictly_ordered (expression : string) (max : number) (s : Q) :
  (Num 0 <? Num s)%js = true ->
  forall fuel a points previousY out,
    strictly_ordered a points previousY ->
    generatePoints_loop math fuel expression max (Num s) a points previousY
    = Some (Returns out) ->
    exists a' previousY', strictly_ordered a' out previousY'.
Proof.
  intros Hstep. apply loop_invariant.
  intros a points previousY v [Hfin [Hadj Hlast]] _ _ _.
  destruct a as [A| | |]; try discriminate.
  pose proof (add_step_ltb A s Hstep) as Hnext.
  split; [|split]; intros.
  - split; [reflexivity|]. split; [exact Hadj|]. intros p Hp.
    eapply ltb_trans; [exact (Hlast p Hp) | exact Hnext].
  - change (points ++ [mkPoint (Num A) NaN; mkPoint (Num A) v])
      with (points ++ [mkPoint (Num A) NaN] ++ [mkPoint (Num A) v]).
    rewrite app_assoc. split; [reflexivity|]. split.
    + apply adjacent_snoc.
      * apply adjacent_snoc; [exact Hadj|]. intros p Hp _. now apply Hlast.
      * intros p. rewrite last_point_snoc. intros [= <-]. discriminate.
    + intros p. rewrite last_point_snoc. intros [= <-]. exact Hnext.
  - split; [reflexivity|]. split.
    + apply adjacent_snoc; [exact Hadj|]. intros p Hp _. now apply Hlast.
    + intros p. rewrite last_point_snoc. intros [= <-]. exact Hnext.
Qed.

Lemma generatePoints_never_throws (fuel : nat) (expression : string)
  (min max step : number) (m : string) :
  generatePoints math fuel expression min max step <> Some (Throws m).
Proof.
  unfold generatePoints.
  destruct (JsString.falsy (JsString.trim expression)); [discriminate|].
  apply loop_never_throws.
Qed.

(** The cap bounds the length before an iteration; one iteration pushes at
    most two points, so a result has at most [MAX_POINTS + 1] of them. *)
Lemma generatePoints_length (fuel : nat) (expression : string)
  (min max step : number) (pts : list point) :
  generatePoints math fuel expression min max step = Some (Returns pts) ->
  (List.length pts <= MAX_POINTS + 1)%nat.
Proof.
  intros H. apply generatePoints_cases in H. destruct H as [->|H].
  - simpl. lia.
  - destruct (loop_invariant math expression max step
                (fun _ l _ => (List.length l <= MAX_POINTS + 1)%nat))
      with (fuel := fuel) (a := min) (points := @nil point)
           (previousY := @None number) (out := pts) as [_ [_ L]];
      [| cbn [List.length]; lia | exact H | exact L].
    intros a points previousY v HI _ Hlen _.
    split; [|split]; intros; [exact HI| |];
      rewrite length_app; cbn [List.length]; lia.
Qed.

(** C5 as amended: for a positive step the abscissas of the returned
    sequence never decrease, and for finite [min] and [step] they strictly
    increase from a point to the next unless the first one is a break
    marker (which shares its [x] with the point after it); for finite
    arguments the call returns. *)
Theorem abscissas_ordered (expression : string) (min max step : number) :
  (Num 0 <? step)%js = true ->
  (forall fuel pts,
      generatePoints math fuel expression min max step = Some (Returns pts) ->
      nondecreasing_x pts
      /\ (isFinite min = true -> isFinite step = true ->
          increasing_between_samples pts))
  /\ (isFinite min = true -> isFinite max = true -> isFinite step = true ->
      exists pts,
        generatePoints math (enough_fuel min max step) expression min max step
        = Some (Returns pts)).
Proof.
  intros Hpos. split.
  - intros fuel pts H. apply generatePoints_cases in H. destruct H as [->|H].
    + split; [|intros _ _]; intros i p q Hp; destruct i; discriminate.
    + split.
      * destruct (loop_ordered expression max step Hpos fuel min [] None pts)
          as [a' [prev' [Hadj _]]]; [|exact H|].
        -- split; [exact I|]. intros _ p. discriminate.
        -- intros i p q Hp Hq. exact (adjacent_nth _ _ Hadj i p q Hp Hq).
      * intros Hmin Hstep.
        destruct min as [A| | |]; try discriminate.
        destruct step as [s| | |]; try discriminate.
        destruct (loop_strictly_ordered expression max s Hpos fuel (Num A) []
                    None pts) as [a' [prev' [_ [Hadj _]]]]; [|exact H|].
        -- split; [reflexivity|]. split; [exact I|]. intros p. discriminate.
        -- intros i p q Hp Hq. exact (adjacent_nth _ _ Hadj i p q Hp Hq).
  - intros Hmin Hmax Hstep. now apply generatePoints_terminates.
Qed.

End Sampler.

(** ** The derivative estimator and the validator *)

Section Estimator.

Variable math : MathJs.

(** The [catch] of [calculateDerivative] is never entered, because
    [evaluateExpression] has already turned every failure into NaN: the
    estimator always returns the number given by the central difference. *)
Lemma calculateDerivative_central_difference (expression : string)
  (a h : number) :
  exists y1 y2,
    evaluateExpression math expression (a - h)%js = Returns y1
    /\ evaluateExpression math expression (a + h)%js = Returns y2
    /\ calculateDerivative math expression a h
       = Returns (Some ((y2 - y1) / (Num 2 * h))%js).
Proof.
  destruct (evaluateExpression_returns math expression (a - h)%js) as [y1 H1].
  destruct (evaluateExpression_returns math expression (a + h)%js) as [y2 H2].
  exists y1, y2. repeat split; try assumption.
  unfold calculateDerivative. now rewrite H1, H2.
Qed.

Lemma sub_NaN_r (a : number) : (a - NaN)%js = NaN.
Proof. now destruct a. Qed.

Lemma div_NaN_l (a : number) : (NaN / a)%js = NaN.
Proof. reflexivity. Qed.

(** a failed evaluation on either side yields the number NaN, not null *)
Lemma calculateDerivative_failure (expression : string) (a h : number) :
  evaluateExpression math expression (a - h)%js = Returns NaN
  \/ evaluateExpression math expression (a + h)%js = Returns NaN ->
  calculateDerivative math expression a h = Returns (Some NaN).
Proof.
  destruct (calculateDerivative_central_difference expression a h)
    as [y1 [y2 [H1 [H2 ->]]]].
  intros [H|H].
  - rewrite H in H1. injection H1 as <-. now rewrite sub_NaN_r.
  - rewrite H in H2. injection H2 as <-. reflexivity.
Qed.

(** C9: the rewrite of [x<digit>] into [x^<digit>] is part of
    [validateExpression] only.  Provided mathjs compiles "x^2" and evaluates
    it at the five test values, and fails on "x2" (an undefined symbol) at
    every [x]: the validator turns "x2" into "x^2" and accepts it, while
    [evaluateExpression] hands "x2" to mathjs as it is and returns NaN for
    every [x]. *)
Theorem rewrite_only_in_validator :
  (n <- parse math "x^2" ;; forEach_evaluate math n test_values) = Returns tt ->
  (forall a, exists m,
      (n <- parse math "x2" ;; evaluate math n a) = Throws m) ->
  sanitize "x2" = "x^2"%string
  /\ validateExpression math "x2" = Returns (mkValidation true None)
  /\ forall a, evaluateExpression math "x2" a = Returns NaN.
Proof.
  intros Hpow Hsym. split; [reflexivity|]. split.
  - unfold validateExpression.
    change (JsString.falsy (JsString.trim "x2")) with false.
    change (sanitize "x2") with "x^2"%string. cbv iota zeta.
    unfold bind in Hpow |- *.
    destruct (parse math "x^2") as [n|m]; [|discriminate].
    destruct (forEach_evaluate math n test_values) as [[]|m];
      [reflexivity | discriminate].
  - intros a. destruct (Hsym a) as [m Hm].
    unfold evaluateExpression. now rewrite Hm.
Qed.

End Estimator.

(** ** Concrete runs with the stand-in for mathjs *)

(** C1, failing input: sampling "600000*sign(x-998.5)" from 0 to 2000 in
    steps of 1 pushes 999 points, then at x = 999 (length 999, still under
    the cap) a break marker and a point: the result has 1001 points. *)
Theorem cap_exceeded_by_break_marker :
  exists pts,
    generatePoints SampleMath.math 1001 jump_at_999 (Num 0) (Num 2000) (Num 1)
    = Some (Returns pts)
    /\ List.length pts = 1001%nat
    /\ nth_error pts 998 = Some (mkPoint (Num 998) (Num (-600000)))
    /\ nth_error pts 999 = Some (mkPoint (Num 999) NaN)
    /\ nth_error pts 1000 = Some (mkPoint (Num 999) (Num 600000)).
Proof.
  eexists. split; [vm_compute; reflexivity|].
  repeat split; vm_compute; reflexivity.
Qed.

(** C4, failing input: "x2" is an undefined symbol, both evaluations fail,
    and the estimator returns the number NaN instead of null. *)
Theorem derivative_of_failed_evaluation_is_NaN :
  evaluateExpression SampleMath.math "x2" (Num 1 - default_h)%js = Returns NaN
  /\ evaluateExpression SampleMath.math "x2" (Num 1 + default_h)%js
     = Returns NaN
  /\ calculateDerivative SampleMath.math "x2" (Num 1) default_h
     = Returns (Some NaN)
  /\ calculateDerivative SampleMath.math "x2" (Num 1) default_h
     <> Returns None.
Proof. repeat split; try reflexivity. discriminate. Qed.

(** C5, counterexample: with step 2 > 0 the returned abscissas are -1, 1, 1:
    the break marker and the point after it have the same [x]. *)
Lemma abscissas_not_strictly_increasing :
  (Num 0 <? Num 2)%js = true
  /\ generatePoints SampleMath.math 3 "600000*x" (Num (-1)) (Num 1) (Num 2)
     = Some (Returns broken_line)
  /\ ~ strictly_increasing_x broken_line.
Proof.
  split; [reflexivity|]. split; [reflexivity|].
  intros H.
  specialize (H 1%nat (mkPoint (Num 1) NaN) (mkPoint (Num 1) (Num 600000))
                eq_refl eq_refl).
  discriminate.
Qed.

(** the parabola of the examples: five points and no break *)
Example parabola :
  generatePoints SampleMath.math 6 "x^2" (Num (-2)) (Num 2) (Num 1)
  = Some (Returns [ mkPoint (Num (-2)) (Num 4); mkPoint (Num (-1)) (Num 1);
                    mkPoint (Num 0) (Num 0); mkPoint (Num 1) (Num 1);
                    mkPoint (Num 2) (Num 4) ]).
Proof. reflexivity. Qed.

(** After a reset the next point starts a fresh segment: "600000/x" is
    skipped at 0 (Infinity), and the point at 1 is pushed without a marker
    although it lies 1.2e6 above the point at -1. *)
Example fresh_segment_after_reset :
  generatePoints SampleMath.math 4 "600000/x" (Num (-1)) (Num 1) (Num 1)
  = Some (Returns [ mkPoint (Num (-1)) (Num (-600000));
                    mkPoint (Num 1) (Num 600000) ]).
Proof. reflexivity. Qed.

(** C2, counterexample to the first half read by the letter: sampling
    "600000/x" at -1, 0 and 1 returns the points (-1, -600000) and
    (1, 600000) next to each other.  The previously emitted [y] and the
    current [y] are 1.2e6 apart and the current [y] is finite and in range,
    yet no NaN marker stands before (1, 600000): the reading at 0 was
    skipped and reset the tracking. *)
Lemma no_marker_after_reset :
  generatePoints SampleMath.math 4 "600000/x" (Num (-1)) (Num 1) (Num 1)
  = Some (Returns [ mkPoint (Num (-1)) (Num (-600000));
                    mkPoint (Num 1) (Num 600000) ])
  /\ ~ jumps_marked [ mkPoint (Num (-1)) (Num (-600000));
                      mkPoint (Num 1) (Num 600000) ].
Proof.
  split; [reflexivity|].
  intros H.
  specialize (H 0%nat _ _ eq_refl eq_refl).
  cbn [point_y] in H.
  assert (plottable (Num (-600000))) as P by (split; reflexivity).
  assert (plottable (Num 600000)) as Q by (split; reflexivity).
  specialize (H P Q). discriminate H.
Qed.

(** the central difference of the parabola at 2 is 4 *)
Example derivative_of_parabola :
  exists d,
    calculateDerivative SampleMath.math "x^2" (Num 2) default_h
    = Returns (Some d)
    /\ num_eq d (Num 4).
Proof. eexists. split; reflexivity. Qed.

Example validateExpression_examples :
  validateExpression SampleMath.math " "
  = Returns (mkValidation false (Some "Empty expression"%string))
  /\ validateExpression SampleMath.math "y"
     = Returns (mkValidation false (Some "Invalid symbol y"%string))
  /\ validateExpression SampleMath.math "x^2"
     = Returns (mkValidation true None).
Proof. repeat split. Qed.

(** ** Viewport: coordinate maps *)

Lemma add_Num (p q : Q) : (Num p + Num q)%js = Num (p + q).
Proof. reflexivity. Qed.

Lemma sub_Num (p q : Q) : (Num p - Num q)%js = Num (p - q).
Proof. reflexivity. Qed.

Lemma mul_Num (p q : Q) : (Num p * Num q)%js = Num (p * q).
Proof. reflexivity. Qed.

(** turn an expression over finite numbers into one over the rationals *)
Ltac to_Q :=
  repeat first
    [ rewrite add_Num | rewrite sub_Num | rewrite mul_Num
    | rewrite div_Num by (try lra) ].

Lemma Qdiv_nonzero (p q : Q) : ~ p == 0 -> ~ q == 0 -> ~ p / q == 0.
Proof.
  intros Hp Hq H. apply Hp.
  assert (p == p / q * q) as -> by (field; exact Hq).
  rewrite H. ring.
Qed.

(** C6: for bounds and a canvas of positive extent, [canvasToGraphCoords]
    (pixel to graph) and [scaleX]/[scaleY] (graph to pixel) are inverse to
    each other, in both directions; the pixel [y] decreases as the graph [y]
    increases, and the pixel [x] increases with the graph [x]. *)
Theorem pixel_graph_round_trip (xmin xmax ymin ymax w h : Q) :
  xmin < xmax -> ymin < ymax -> 0 < w -> 0 < h ->
  let b := mkBounds (Num xmin) (Num xmax) (Num ymin) (Num ymax) in
  let s := mkSize (Num w) (Num h) in
  (forall px py,
      coords_eq (graphToPixel s (canvasToGraphCoords s (Num px) (Num py) b) b)
                (mkCoords (Num px) (Num py)))
  /\ (forall gx gy,
      coords_eq (canvasToGraphCoords s (scaleX s (Num gx) b)
                   (scaleY s (Num gy) b) b)
                (mkCoords (Num gx) (Num gy)))
  /\ (forall y1 y2, y1 < y2 ->
      (scaleY s (Num y2) b <? scaleY s (Num y1) b)%js = true)
  /\ (forall x1 x2, x1 < x2 ->
      (scaleX s (Num x1) b <? scaleX s (Num x2) b)%js = true).
Proof.
  intros Hx Hy Hw Hh b s.
  unfold coords_eq, graphToPixel, canvasToGraphCoords, scaleX, scaleY, b, s.
  cbn [x y xMin xMax yMin yMax width height].
  repeat split; intros.
  - to_Q. simpl. field. split; lra.
  - to_Q. simpl. field. split; lra.
  - to_Q. simpl. field. split; lra.
  - to_Q. simpl. field. split; lra.
  - to_Q. simpl. apply Qltb_lt.
    assert (0 < / (ymax - ymin)) as Hi by (apply Qinv_lt_0_compat; lra).
    unfold Qdiv. set (i := / (ymax - ymin)) in *.
    assert (0 < i * h) by (apply Qmult_lt_0_compat; assumption).
    nra.
  - to_Q. simpl. apply Qltb_lt.
    assert (0 < / (xmax - xmin)) as Hi by (apply Qinv_lt_0_compat; lra).
    unfold Qdiv. set (i := / (xmax - xmin)) in *.
    assert (0 < i * w) by (apply Qmult_lt_0_compat; assumption).
    nra.
Qed.

(** ** Viewport: zoom *)

Lemma clamp_in_range (v : number) :
  isNaN v = false -> zoom_in_range (clamp v) = true.
Proof.
  unfold clamp, max, min, zoom_in_range, within.
  destruct v as [q| | |]; try discriminate; try reflexivity. intros _.
  cbn [isNaN orb ltb].
  destruct (Qltb q 2) eqn:H2; cbn [isNaN orb ltb].
  - destruct (Qltb (1 # 2) q) eqn:H1; cbn [leb].
    + apply Qltb_lt in H1, H2. apply andb_true_iff.
      split; apply Qle_bool_iff; lra.
    + reflexivity.
  - reflexivity.
Qed.

(** [Math.max] and [Math.min] let NaN through *)
Lemma clamp_NaN : clamp NaN = NaN.
Proof. reflexivity. Qed.

Lemma in_range_finite (n : number) :
  zoom_in_range n = true -> exists q, n = Num q.
Proof.
  destruct n as [q| | |]; try discriminate. intros _. now exists q.
Qed.

Lemma handleZoomChange_in_range (value : number) (app : App) :
  isNaN value = false ->
  zoom_in_range (zoomLevel app) = true ->
  zoom_invariant (handleZoomChange value app).
Proof.
  intros Hv Hl. split; [|exact Hl]. cbn.
  apply clamp_in_range.
  pose proof (clamp_in_range value Hv) as H.
  destruct (in_range_finite _ H) as [q ->]. reflexivity.
Qed.

Lemma handleMouseMove_zoom (d : DragStart) (v : Viewport) (s : Size)
  (e : MouseEvent) (v' : Viewport) :
  handleMouseMove d v s e = Some v' -> zoom v' = zoom v.
Proof.
  unfold handleMouseMove.
  destruct (falsy_number (drag_x d)); [discriminate|].
  destruct (startCenter d); [|discriminate].
  now intros [= <-].
Qed.

Lemma dispatch_invariant (app : App) (ev : Event) :
  numeric_event ev -> zoom_invariant app -> zoom_invariant (dispatch app ev).
Proof.
  intros Hev [Hz Hl].
  destruct ev; cbn [dispatch].
  - destruct (in_range_finite _ Hz) as [q Hq].
    apply handleZoomChange_in_range; [|exact Hl]. now rewrite Hq.
  - destruct (in_range_finite _ Hz) as [q Hq].
    apply handleZoomChange_in_range; [|exact Hl]. now rewrite Hq.
  - now apply handleZoomChange_in_range.
  - split; [reflexivity | exact Hl].
  - now split.
  - destruct (handleMouseMove (dragStart app) (viewport app) (size app) e)
      as [v|] eqn:E; [|now split].
    apply handleMouseMove_zoom in E.
    split; cbn; now rewrite E.
  - now split.
  - now split.
Qed.

Lemma run_invariant (events : list Event) :
  forall app, Forall numeric_event events -> zoom_invariant app ->
              zoom_invariant (run app events).
Proof.
  induction events as [|ev events IH]; intros app Hev HI; [exact HI|].
  inversion Hev; subst. apply IH; [assumption|].
  now apply dispatch_invariant.
Qed.


(** ** Viewport: panning *)

(** C8, the code at a failing input: at zoom 2 on a 512 x 512 canvas,
    dragging from pixel (256, 256) to (320, 256) moves the centre from
    (0, 0) to (-5, 0); the graph point under the cursor was x = 0 and is now
    x = -3.75.  [handleMouseMove] scales the pixel delta by
    [20 * zoom / width], where [calculateBounds] and [canvasToGraphCoords]
    show [20 / zoom] graph units across the width: an anchored drag would
    move the centre to (-1.25, 0). *)
Lemma pan_not_anchored :
  zoom_in_range (zoom zoomed_in) = true
  /\ exists after,
       handleMouseMove (handleMouseDown zoomed_in press) zoomed_in
         square_canvas drag_right = Some after
       /\ coords_eq (center after) (center panned)
       /\ num_eq (x (graphPointAt at_origin zoomed_in square_canvas press))
                 (Num 0)
       /\ num_eq (x (graphPointAt at_origin after square_canvas drag_right))
                 (Num (-15 # 4))
       /\ ~ anchored at_origin square_canvas zoomed_in after press drag_right.
Proof.
  split; [reflexivity|]. eexists. split; [reflexivity|].
  repeat split; try (vm_compute; reflexivity).
  intros [Hx _]. vm_compute in Hx. discriminate.
Qed.

(** the same at the default 800 x 600 canvas at zoom 1: the ordinate under
    the cursor drifts, since the vertical delta is scaled by [20 / height]
    where the window is [20 * height / width] high *)
Lemma pan_not_anchored_default_canvas :
  exists after,
    handleMouseMove (handleMouseDown unzoomed press_default) unzoomed
      default_canvas drag_down = Some after
    /\ ~ anchored at_origin default_canvas unzoomed after
           press_default drag_down.
Proof.
  eexists. split; [reflexivity|].
  intros [_ Hy]. vm_compute in Hy. discriminate.
Qed.

(** How far a drag misses in general: a drag from [down] to [move] (started
    at a non-zero [clientX]) moves the centre by [-20 zoom (mx - dx) / width] and
    [+20 zoom (my - dy) / height] and keeps the zoom; the graph point under
    the cursor drifts by [20 (mx - dx) / width * (1 / zoom - zoom)] and
    [20 (my - dy) * (zoom / height - 1 / (zoom * width))]; it is the same
    point as at the start when the zoom is 1 and the canvas is square. *)
Theorem pan_moves_cursor_point (cx cy z w h l t dx dy mx my : Q) :
  ~ z == 0 -> ~ w == 0 -> ~ h == 0 -> ~ dx == 0 ->
  let v := mkViewport (mkCoords (Num cx) (Num cy)) (Num z) in
  let s := mkSize (Num w) (Num h) in
  let r := mkRect (Num l) (Num t) in
  let down := mkMouse (Num dx) (Num dy) in
  let move := mkMouse (Num mx) (Num my) in
  exists after,
    handleMouseMove (handleMouseDown v down) v s move = Some after
    /\ zoom after = zoom v
    /\ coords_eq (center after)
         (mkCoords (Num (cx - 20 * z * (mx - dx) / w))
                   (Num (cy + 20 * z * (my - dy) / h)))
    /\ coords_eq (graphPointAt r after s move)
         (mkCoords
            (x (graphPointAt r v s down)
             + Num (20 * (mx - dx) / w * (1 / z - z)))%js
            (y (graphPointAt r v s down)
             + Num (20 * (my - dy) * (z / h - 1 / (z * w))))%js)
    /\ (z == 1 -> w == h -> anchored r s v after down move).
Proof.
  intros Hz Hw Hh Hdx v s r down move.
  assert (~ 20 / z == 0) as HW by (apply Qdiv_nonzero; [lra | exact Hz]).
  assert (~ 20 / z * (h / w) == 0) as HH.
  { intros E. apply Qmult_integral in E. destruct E as [E|E]; [tauto|].
    revert E. apply Qdiv_nonzero; assumption. }
  subst v s r down move.
  unfold handleMouseMove, handleMouseDown.
  cbn [drag_x drag_y startCenter falsy_number center clientX clientY zoom
       width height x y].
  rewrite (Qeq_bool_false dx Hdx).
  eexists. split; [reflexivity|]. split; [reflexivity|].
  unfold coords_eq, anchored, graphPointAt, canvasToGraphCoords,
    calculateBounds.
  cbn [x y xMin xMax yMin yMax width height center zoom clientX clientY
       left top].
  rewrite (div_Num h w Hw), (div_Num 20 z Hz), (div_Num z w Hw),
    (div_Num z h Hh).
  set (W := 20 / z) in *. set (A := h / w) in *.
  to_Q. unfold num_eq. subst W A.
  split; [|split].
  - split; field; assumption.
  - split; field; repeat split; assumption.
  - intros E1 E2. split.
    + rewrite E1. field. assumption.
    + rewrite E1, E2. field. assumption.
Qed.

(** ** Instances

    Each theorem above that has premises, applied to a concrete run. *)

(** "x2" at 3: parsing succeeds, evaluating throws, NaN is returned *)
Lemma evaluateExpression_never_throws_witness :
  parse SampleMath.math "x2" = Returns (SampleMath.SymbolNode "x2")
  /\ evaluate SampleMath.math (SampleMath.SymbolNode "x2") (Num 3)
     = Throws "Undefined symbol x2"
  /\ evaluateExpression SampleMath.math "x2" (Num 3) = Returns NaN.
Proof.
  split; [reflexivity|]. split; [reflexivity|].
  exact (proj1 (proj2 (proj2
           (evaluateExpression_never_throws SampleMath.math "x2" (Num 3))))
           (SampleMath.SymbolNode "x2") "Undefined symbol x2"%string
           eq_refl eq_refl).
Defined.

(** "600000/x" sampled at -1, 0 and 1: the reading at 0 is skipped *)
Lemma generatePoints_emits_witness :
  ascii_only "600000/x" = true
  /\ JsString.falsy (JsString.trim "600000/x") = false
  /\ exact_grid (Num (-1)) (Num 1) (Num 1)
  /\ (exists rs next,
        readings_from SampleMath.math "600000/x" (Num 1) (Num (-1)) rs next
        /\ Forall (fun r => (reading_x r <=? Num 1)%js = true) rs
        /\ [ mkPoint (Num (-1)) (Num (-600000));
             mkPoint (Num 1) (Num 600000) ] = emitted None rs
        /\ (forall k, (k < List.length rs)%nat ->
                      (List.length (emitted None (firstn k rs))
                       < MAX_POINTS)%nat)
        /\ ((next <=? Num 1)%js = false
            \/ (MAX_POINTS
                <= List.length [ mkPoint (Num (-1)) (Num (-600000));
                                 mkPoint (Num 1) (Num 600000) ])%nat))
  /\ exists pts,
       generatePoints SampleMath.math
         (enough_fuel (Num (-1)) (Num 1) (Num 1)) "600000/x"
         (Num (-1)) (Num 1) (Num 1)
       = Some (Returns pts).
Proof.
  assert (exact_grid (Num (-1)) (Num 1) (Num 1)) as G.
  { exists (-1)%Z, 1%Z, 1%Z.
    repeat split; try reflexivity; vm_compute; discriminate. }
  destruct (generatePoints_emits SampleMath.math "600000/x"
              (Num (-1)) (Num 1) (Num 1) eq_refl eq_refl) as [E T].
  split; [reflexivity|]. split; [reflexivity|]. split; [exact G|]. split.
  - exact (E 4%nat _ eq_refl).
  - exact (T G).
Defined.

(** the abscissas -1, 1, 1 of [broken_line] *)
Lemma abscissas_ordered_witness :
  (Num 0 <? Num 2)%js = true
  /\ generatePoints SampleMath.math 3 "600000*x" (Num (-1)) (Num 1) (Num 2)
     = Some (Returns broken_line)
  /\ nondecreasing_x broken_line
  /\ increasing_between_samples broken_line.
Proof.
  split; [reflexivity|]. split; [reflexivity|].
  destruct (abscissas_ordered SampleMath.math "600000*x" (Num (-1)) (Num 1)
              (Num 2) eq_refl) as [H _].
  destruct (H 3%nat broken_line eq_refl) as [H1 H2].
  split; [exact H1 | exact (H2 eq_refl eq_refl)].
Defined.

(** the marker of [broken_line] is followed by (1, 600000) *)
Lemma breaks_are_followed_witness :
  generatePoints SampleMath.math 3 "600000*x" (Num (-1)) (Num 1) (Num 2)
  = Some (Returns broken_line)
  /\ breaks_followed broken_line.
Proof.
  split; [reflexivity|].
  exact (proj1 (breaks_are_followed SampleMath.math "600000*x" (Num (-1))
                  (Num 1) (Num 2)) 3%nat broken_line eq_refl).
Defined.

(** "x2" with the stand-in for mathjs *)
Lemma rewrite_only_in_validator_witness :
  validateExpression SampleMath.math "x2" = Returns (mkValidation true None)
  /\ evaluateExpression SampleMath.math "x2" (Num 3) = Returns NaN.
Proof.
  assert (forall a, exists m,
             (n <- parse SampleMath.math "x2" ;;
              evaluate SampleMath.math n a) = Throws m) as Hsym.
  { intros a. eexists. reflexivity. }
  destruct (rewrite_only_in_validator SampleMath.math eq_refl Hsym)
    as [_ [Hv He]].
  split; [exact Hv | exact (He (Num 3))].
Defined.

(** pixel (200, 150) of the default canvas showing [-10, 10] x [-7.5, 7.5] *)
Lemma pixel_graph_round_trip_witness :
  -10 < 10 /\ -(15 # 2) < 15 # 2 /\ 0 < 800 /\ 0 < 600
  /\ coords_eq
       (graphToPixel default_canvas
          (canvasToGraphCoords default_canvas (Num 200) (Num 150)
             (mkBounds (Num (-10)) (Num 10) (Num (-(15 # 2))) (Num (15 # 2))))
          (mkBounds (Num (-10)) (Num 10) (Num (-(15 # 2))) (Num (15 # 2))))
       (mkCoords (Num 200) (Num 150)).
Proof.
  assert (-10 < 10) as H1 by reflexivity.
  assert (-(15 # 2) < 15 # 2) as H2 by reflexivity.
  assert (0 < 800) as H3 by reflexivity.
  assert (0 < 600) as H4 by reflexivity.
  repeat (split; [assumption|]).
  exact (proj1 (pixel_graph_round_trip (-10) 10 (-(15 # 2)) (15 # 2) 800 600
                  H1 H2 H3 H4) 200 150).
Defined.


(** at zoom 1 on the square canvas the drag keeps the cursor point *)
Lemma pan_moves_cursor_point_witness :
  ~ 1 == 0 /\ ~ 512 == 0 /\ ~ 256 == 0
  /\ exists after,
       handleMouseMove
         (handleMouseDown (mkViewport (mkCoords (Num 0) (Num 0)) (Num 1)) press)
         (mkViewport (mkCoords (Num 0) (Num 0)) (Num 1))
         square_canvas drag_right = Some after
       /\ anchored at_origin square_canvas
            (mkViewport (mkCoords (Num 0) (Num 0)) (Num 1)) after
            press drag_right.
Proof.
  assert (~ 1 == 0) as H1 by (intros H; discriminate H).
  assert (~ 512 == 0) as H2 by (intros H; discriminate H).
  assert (~ 256 == 0) as H3 by (intros H; discriminate H).
  repeat (split; [assumption|]).
  destruct (pan_moves_cursor_point 0 0 1 512 512 0 0 256 256 320 256
              H1 H2 H2 H3) as [after [Hm [_ [_ [_ Ha]]]]].
  exists after. split; [exact Hm|].
  apply Ha; reflexivity.
Defined.

(** * Further properties of the code *)

(** ** Blank expressions *)

Lemma falsy_trimStart (s : string) :
  JsString.falsy (JsString.trimStart s) = blank s.
Proof.
  induction s as [|c s IH]; [reflexivity|]. simpl.
  destruct (JsString.is_whitespace c); [exact IH | reflexivity].
Qed.

Lemma blank_trimStart (s : string) : blank (JsString.trimStart s) = blank s.
Proof.
  induction s as [|c s IH]; [reflexivity|]. simpl.
  destruct (JsString.is_whitespace c) eqn:Hc; [exact IH|].
  simpl. now rewrite Hc.
Qed.

Lemma blank_reverse (s acc : string) :
  blank (JsString.reverse s acc) = blank s && blank acc.
Proof.
  revert acc. induction s as [|c s IH]; intros acc; [reflexivity|].
  simpl. rewrite IH. simpl.
  destruct (JsString.is_whitespace c), (blank s); reflexivity.
Qed.

Lemma falsy_reverse (s acc : string) :
  JsString.falsy (JsString.reverse s acc)
  = JsString.falsy s && JsString.falsy acc.
Proof.
  revert acc. induction s as [|c s IH]; intros acc; [reflexivity|].
  simpl. rewrite IH. simpl. apply andb_false_r.
Qed.

Lemma falsy_trim (s : string) : JsString.falsy (JsString.trim s) = blank s.
Proof.
  unfold JsString.trim.
  rewrite falsy_reverse, falsy_trimStart, blank_reverse, blank_trimStart.
  simpl. now rewrite !andb_true_r.
Qed.

Section SamplerMore.

Variable math : MathJs.

(** *** Points lie on the curve *)

Lemma on_curve_marker (expression : string) (max a : number) :
  (a <=? max)%js = true -> on_curve math expression max (mkPoint a NaN).
Proof. intros H. split; [exact H | discriminate]. Qed.

Lemma on_curve_value (expression : string) (max a v : number) :
  (a <=? max)%js = true ->
  evaluateExpression math expression a = Returns v -> plottable v ->
  on_curve math expression max (mkPoint a v).
Proof. intros H Hv Hp. split; [exact H | now intros _]. Qed.

Lemma loop_sampled (expression : string) (max step : number) :
  forall fuel a points previousY out,
    sampled math expression max a points previousY ->
    generatePoints_loop math fuel expression max step a points previousY
    = Some (Returns out) ->
    exists a' previousY', sampled math expression max a' out previousY'.
Proof.
  apply loop_invariant.
  intros a points previousY v HI Hle _ Hv. unfold sampled in *.
  split; [|split]; intros Hok.
  - exact HI.
  - intros _. apply invalid_y_false in Hok.
    apply Forall_app. split; [exact HI|].
    constructor; [now apply on_curve_marker|].
    constructor; [now apply on_curve_value | constructor].
  - intros _. apply invalid_y_false in Hok.
    apply Forall_app. split; [exact HI|].
    constructor; [now apply on_curve_value | constructor].
Qed.

(** X2: every point of a returned sequence was sampled at an abscissa not
    beyond [max]; unless it is a break marker, its [y] is the value
    [evaluateExpression] returns at its [x], and that value is finite and
    at most 1e6 in size. *)
Theorem points_on_curve (fuel : nat) (expression : string)
  (min max step : number) (pts : list point) :
  generatePoints math fuel expression min max step = Some (Returns pts) ->
  forall p, In p pts ->
    (point_x p <=? max)%js = true
    /\ (isNaN (point_y p) = false ->
        evaluateExpression math expression (point_x p) = Returns (point_y p)
        /\ plottable (point_y p)).
Proof.
  intros H p Hp. apply generatePoints_cases in H. destruct H as [->|H].
  - destruct Hp.
  - destruct (loop_sampled expression max step fuel min [] None pts)
      as [a' [prev' HI]]; [constructor | exact H |].
    unfold sampled in HI. rewrite Forall_forall in HI. exact (HI p Hp).
Qed.

(** *** Points lie in the range *)

Lemma loop_in_range (expression : string) (min max step : number) :
  (Num 0 <? step)%js = true ->
  forall fuel a points previousY out,
    in_range min max a points previousY ->
    generatePoints_loop math fuel expression max step a points previousY
    = Some (Returns out) ->
    exists a' previousY', in_range min max a' out previousY'.
Proof.
  intros Hstep. apply loop_invariant.
  intros a points previousY v [Ha HI] Hle _ _.
  pose proof (leb_not_NaN _ _ Hle) as Hn. specialize (Ha Hn).
  assert (isNaN (a + step)%js = false -> (min <=? a + step)%js = true) as Hnext.
  { intros Hn'. eapply leb_trans; [exact Ha | now apply add_step_leb]. }
  split; [|split]; intros.
  - split; [exact Hnext | exact HI].
  - split; [exact Hnext|]. apply Forall_app. split; [exact HI|].
    constructor; [now split|]. constructor; [now split | constructor].
  - split; [exact Hnext|]. apply Forall_app. split; [exact HI|].
    constructor; [now split | constructor].
Qed.

(** X3: for a positive step every returned point, markers included, has its
    abscissa between [min] and [max]. *)
Theorem points_within_range (fuel : nat) (expression : string)
  (min max step : number) (pts : list point) :
  (Num 0 <? step)%js = true ->
  generatePoints math fuel expression min max step = Some (Returns pts) ->
  forall p, In p pts ->
    (min <=? point_x p)%js = true /\ (point_x p <=? max)%js = true.
Proof.
  intros Hstep H p Hp. apply generatePoints_cases in H. destruct H as [->|H].
  - destruct Hp.
  - destruct (loop_in_range expression min max step Hstep fuel min [] None pts)
      as [a' [prev' [_ HI]]]; [|exact H|].
    + split; [apply leb_refl | constructor].
    + rewrite Forall_forall in HI. exact (HI p Hp).
Qed.

End SamplerMore.

(** ** The sampling grid *)

Lemma grid_point_finite (m s : Q) (k : nat) (a : number) :
  grid_point m s k a ->
  exists A, a = Num A /\ A == m + inject_Z (Z.of_nat k) * s.
Proof.
  unfold grid_point. destruct a as [A| | |]; simpl; try tauto.
  intros H. now exists A.
Qed.

Lemma grid_point_next (m s : Q) (k : nat) (a : number) :
  grid_point m s k a -> grid_point m s (S k) (a + Num s)%js.
Proof.
  intros H. destruct (grid_point_finite _ _ _ _ H) as [A [-> E]].
  change (A + s == m + inject_Z (Z.of_nat (S k)) * s).
  rewrite Nat2Z.inj_succ. unfold Z.succ. rewrite inject_Z_plus, E.
  change (inject_Z 1) with 1. ring.
Qed.

Lemma grid_point_ge (m s : Q) (k : nat) (a : number) :
  0 < s -> grid_point m s k a -> (Num m <=? a)%js = true.
Proof.
  intros Hs H. destruct (grid_point_finite _ _ _ _ H) as [A [-> E]].
  simpl. apply Qle_bool_iff. rewrite E.
  assert (0 <= inject_Z (Z.of_nat k)) as Hk.
  { change 0 with (inject_Z 0). rewrite <- Zle_Qle. lia. }
  assert (0 <= inject_Z (Z.of_nat k) * s) by (apply Qmult_le_0_compat; lra).
  lra.
Qed.

Section Grid.

Variable math : MathJs.

Lemma loop_on_grid (expression : string) (max : number) (m s : Q) :
  forall fuel a points previousY out,
    on_grid m s a points previousY ->
    generatePoints_loop math fuel expression max (Num s) a points previousY
    = Some (Returns out) ->
    exists a' previousY', on_grid m s a' out previousY'.
Proof.
  apply loop_invariant.
  intros a points previousY v [[n Hn] HI] _ _ _.
  assert (exists k, grid_point m s k (a + Num s)%js) as Hnext.
  { exists (S n). now apply grid_point_next. }
  split; [|split]; intros.
  - now split.
  - split; [exact Hnext|]. apply Forall_app. split; [exact HI|].
    constructor; [now exists n|]. constructor; [now exists n | constructor].
  - split; [exact Hnext|]. apply Forall_app. split; [exact HI|].
    constructor; [now exists n | constructor].
Qed.

(** X4: for a finite start [m] and step [s], every returned abscissa is
    [m + k s] for some natural [k]: nothing is sampled off the grid. *)
Theorem points_on_grid (fuel : nat) (expression : string) (max : number)
  (m s : Q) (pts : list point) :
  generatePoints math fuel expression (Num m) max (Num s)
  = Some (Returns pts) ->
  forall p, In p pts ->
    exists k, num_eq (point_x p) (Num (m + inject_Z (Z.of_nat k) * s)).
Proof.
  intros H p Hp. apply generatePoints_cases in H. destruct H as [->|H].
  - destruct Hp.
  - destruct (loop_on_grid expression max m s fuel (Num m) [] None pts)
      as [a' [prev' [_ HI]]]; [|exact H|].
    + split; [|constructor]. exists O. unfold grid_point. simpl. ring.
    + rewrite Forall_forall in HI. exact (HI p Hp).
Qed.

Lemma loop_dense (expression : string) (max : number) (m s : Q) :
  0 < s -> plottable_on math expression (Num m) max ->
  forall fuel a points previousY out,
    dense m s a points previousY ->
    generatePoints_loop math fuel expression max (Num s) a points previousY
    = Some (Returns out) ->
    exists a' previousY', dense m s a' out previousY'.
Proof.
  intros Hs Hplot. apply loop_invariant.
  intros a points previousY v [[n [Hn Hlen]] HI] Hle Hcap Hv.
  destruct (Hplot a (grid_point_ge m s n a Hs Hn) Hle) as [w [Hw Hok]].
  rewrite Hv in Hw. injection Hw as <-.
  apply invalid_y_false in Hok.
  assert (exists k, (k < MAX_POINTS)%nat /\ grid_point m s k a) as Hk.
  { exists n. split; [lia | exact Hn]. }
  split; [|split]; intros.
  - congruence.
  - split.
    + exists (S n). split; [now apply grid_point_next|].
      rewrite length_app. cbn [List.length]. lia.
    + apply Forall_app. split; [exact HI|].
      constructor; [exact Hk|]. constructor; [exact Hk | constructor].
  - split.
    + exists (S n). split; [now apply grid_point_next|].
      rewrite length_app. cbn [List.length]. lia.
    + apply Forall_app. split; [exact HI|].
      constructor; [exact Hk | constructor].
Qed.

(** X5: when the expression has a plottable value all over [[m, max]], only
    the first [MAX_POINTS] abscissas of the grid are sampled: every returned
    point sits at [m + k s] with [k < 1000], however far [max] is. *)
Theorem cap_truncates_sampling (fuel : nat) (expression : string)
  (max : number) (m s : Q) (pts : list point) :
  0 < s -> plottable_on math expression (Num m) max ->
  generatePoints math fuel expression (Num m) max (Num s)
  = Some (Returns pts) ->
  forall p, In p pts ->
    exists k, (k < MAX_POINTS)%nat
              /\ num_eq (point_x p) (Num (m + inject_Z (Z.of_nat k) * s)).
Proof.
  intros Hs Hplot H p Hp. apply generatePoints_cases in H.
  destruct H as [->|H].
  - destruct Hp.
  - destruct (loop_dense expression max m s Hs Hplot fuel (Num m) [] None pts)
      as [a' [prev' [_ HI]]]; [|exact H|].
    + split; [|constructor]. exists O. split; [|cbn [List.length]; lia].
      unfold grid_point. simpl. ring.
    + rewrite Forall_forall in HI. exact (HI p Hp).
Qed.

(** X8: the drawing effect samples from [xMin - 1] to [xMax + 1] in steps of
    [0.02 / zoomLevel], which is more than 1000 steps.  With [zoomLevel]
    equal to the zoom, an expression that is plottable over that whole
    interval is therefore never sampled at or beyond [xMax - 1]: the curve
    stops more than one graph unit short of the right edge of the window. *)
Theorem render_stops_short_of_right_edge (fuel : nat) (expression : string)
  (cx cy z w h : Q) (pts : list point) :
  0 < z -> ~ w == 0 ->
  let viewport := mkViewport (mkCoords (Num cx) (Num cy)) (Num z) in
  let size := mkSize (Num w) (Num h) in
  let bounds := calculateBounds viewport size in
  plottable_on math expression (xMin bounds - Num 1)%js
    (xMax bounds + Num 1)%js ->
  renderedPoints math fuel viewport size (Num z) expression
  = Some (Returns pts) ->
  forall p, In p pts -> (point_x p <? xMax bounds - Num 1)%js = true.
Proof.
  intros Hz Hw viewport size bounds.
  unfold renderedPoints. fold bounds.
  assert (~ z == 0) as Hz0 by lra.
  assert (xMin bounds = Num (cx - 20 / z / 2)) as Emin.
  { unfold bounds, calculateBounds, viewport, size.
    cbn [xMin center zoom x width height].
    now rewrite (div_Num 20 z Hz0), div_Num by lra. }
  assert (xMax bounds = Num (cx + 20 / z / 2)) as Emax.
  { unfold bounds, calculateBounds, viewport, size.
    cbn [xMax center zoom x width height].
    now rewrite (div_Num 20 z Hz0), div_Num by lra. }
  rewrite Emin, Emax, (div_Num (2 # 100) z Hz0), !sub_Num, add_Num.
  intros Hplot Hrun p Hp.
  assert (0 < (2 # 100) / z) as Hs.
  { apply Qlt_shift_div_l; lra. }
  assert (exists k, (k < MAX_POINTS)%nat
                    /\ grid_point (cx - 20 / z / 2 - 1) ((2 # 100) / z) k
                         (point_x p)) as [k [Hk E]].
  { apply generatePoints_cases in Hrun. destruct Hrun as [->|Hrun].
    - destruct Hp.
    - destruct (loop_dense expression (Num (cx + 20 / z / 2 + 1))
                  (cx - 20 / z / 2 - 1) ((2 # 100) / z) Hs Hplot fuel
                  (Num (cx - 20 / z / 2 - 1)) [] None pts)
        as [a' [prev' [_ HI]]]; [|exact Hrun|].
      + split; [|constructor]. exists O. split; [|cbn [List.length]; lia].
        unfold grid_point. simpl. ring.
      + rewrite Forall_forall in HI. exact (HI p Hp). }
  unfold grid_point in E.
  destruct (point_x p) as [A| | |]; simpl in E; try tauto.
  simpl. apply Qltb_lt. rewrite E.
  assert (inject_Z (Z.of_nat k) <= 999) as Hk'.
  { change 999 with (inject_Z 999). rewrite <- Zle_Qle.
    unfold MAX_POINTS in Hk. lia. }
  unfold Qdiv in *. set (i := / z) in *.
  assert (0 < i) as Hi by (apply Qinv_lt_0_compat; exact Hz).
  assert (inject_Z (Z.of_nat k) * ((2 # 100) * i) <= 999 * ((2 # 100) * i)).
  { apply Qmult_le_compat_r; lra. }
  assert (20 * i * / 2 == 10 * i) as R by field.
  rewrite R. set (K := inject_Z (Z.of_nat k)) in *. lra.
Qed.

End Grid.

(** ** The validator *)

Lemma String_x_cases (d : ascii) : d = "x"%char \/ is_x d = false.
Proof.
  unfold is_x. destruct (Ascii.eqb_spec d "x"); [now left | now right].
Qed.

Lemma replace_digit_x_plain (s : string) :
  adjacent_chars JsString.is_digit is_x s = false ->
  JsString.replace_digit_x s = s.
Proof.
  induction s as [|c s IH]; [reflexivity|].
  destruct s as [|d s]; [reflexivity|].
  intros H. cbn [adjacent_chars] in H. apply orb_false_iff in H.
  destruct H as [H1 H2]. specialize (IH H2).
  destruct (String_x_cases d) as [->|Hd].
  - cbn [is_x Ascii.eqb Bool.eqb] in H1. simpl in H1. rewrite andb_true_r in H1.
    cbn [JsString.replace_digit_x] in *. rewrite H1. now rewrite IH.
  - change (JsString.replace_digit_x (String c (String d s)))
      with (match d with
            | "x"%char =>
                if JsString.is_digit c
                then String c (String "*" (String "x"
                       (JsString.replace_digit_x s)))
                else String c (JsString.replace_digit_x (String d s))
            | _ => String c (JsString.replace_digit_x (String d s))
            end).
    rewrite IH.
    destruct d as [[] [] [] [] [] [] [] []]; try reflexivity.
    discriminate Hd.
Qed.

Lemma replace_x_digit_plain (s : string) :
  adjacent_chars is_x JsString.is_digit s = false ->
  JsString.replace_x_digit s = s.
Proof.
  induction s as [|c s IH]; [reflexivity|].
  destruct s as [|d s].
  - intros _. destruct c as [[] [] [] [] [] [] [] []]; reflexivity.
  - intros H. cbn [adjacent_chars] in H. apply orb_false_iff in H.
    destruct H as [H1 H2]. specialize (IH H2).
    destruct (String_x_cases c) as [->|Hc].
    + simpl in H1.
      change (JsString.replace_x_digit (String "x" (String d s)))
        with (if JsString.is_digit d
              then String "x" (String "^" (String d
                     (JsString.replace_x_digit s)))
              else String "x" (JsString.replace_x_digit (String d s))).
      rewrite H1. now rewrite IH.
    + change (JsString.replace_x_digit (String c (String d s)))
        with (match c with
              | "x"%char =>
                  if JsString.is_digit d
                  then String "x" (String "^" (String d
                         (JsString.replace_x_digit s)))
                  else String c (JsString.replace_x_digit (String d s))
              | _ => String c (JsString.replace_x_digit (String d s))
              end).
      rewrite IH.
      destruct c as [[] [] [] [] [] [] [] []]; try reflexivity.
      discriminate Hc.
Qed.

Lemma sanitize_plain (expression : string) :
  plain expression = true -> sanitize expression = expression.
Proof.
  unfold plain, sanitize. intros H. apply andb_true_iff in H.
  destruct H as [H1 H2]. apply negb_true_iff in H1, H2.
  rewrite (replace_digit_x_plain _ H1). now apply replace_x_digit_plain.
Qed.

Section ValidatorMore.

Variable math : MathJs.

Lemma forEach_evaluate_returns (n : node math) (xs : list number) :
  forEach_evaluate math n xs = Returns tt
  <-> forall a, In a xs -> exists v, evaluate math n a = Returns v.
Proof.
  induction xs as [|b xs IH]; simpl.
  - split; [intros _ a [] | reflexivity].
  - unfold bind. destruct (evaluate math n b) as [v|m] eqn:E.
    + rewrite IH. split.
      * intros H a [<-|Ha]; [now exists v | now apply H].
      * intros H a Ha. apply H. now right.
    + split; [discriminate|]. intros H.
      destruct (H b (or_introl eq_refl)) as [v Hv]. congruence.
Qed.

Lemma forEach_evaluate_cases (n : node math) (xs : list number) :
  forEach_evaluate math n xs = Returns tt
  \/ exists m, forEach_evaluate math n xs = Throws m.
Proof.
  destruct (forEach_evaluate math n xs) as [[]|m]; [now left | right].
  now exists m.
Qed.

(** X11: on an expression of ASCII characters [validateExpression] never
    throws and its result is consistent ([isValid] exactly when there is no
    [error]); it accepts the expression exactly when it is not blank, mathjs
    compiles the rewritten string and evaluates it at -2, -1, 0, 1 and 2
    without throwing; a blank expression is rejected as "Empty expression".
    (White space outside ASCII is trimmed by the code as well; [blank] does
    not speak of it, hence the restriction.) *)
Theorem validateExpression_verdict (expression : string) :
  ascii_only expression = true ->
  (exists r, validateExpression math expression = Returns r
             /\ (isValid r = true <-> error r = None))
  /\ (validateExpression math expression = Returns (mkValidation true None)
      <-> blank expression = false
          /\ exists n, parse math (sanitize expression) = Returns n
               /\ forall a, In a test_values ->
                    exists v, evaluate math n a = Returns v)
  /\ (blank expression = true ->
      validateExpression math expression
      = Returns (mkValidation false (Some "Empty expression"%string))).
Proof.
  intros _. unfold validateExpression. rewrite falsy_trim.
  destruct (blank expression).
  - simpl. split; [|split].
    + eexists. split; [reflexivity|]. simpl. split; discriminate.
    + split; [discriminate | intros [H _]; discriminate].
    + reflexivity.
  - cbv zeta. unfold bind, try_catch.
    destruct (parse math (sanitize expression)) as [n|m] eqn:P.
    + destruct (forEach_evaluate_cases n test_values) as [E|[m E]]; rewrite E.
      * split; [|split].
        -- eexists. split; [reflexivity|]. simpl. tauto.
        -- split; [|reflexivity]. intros _. split; [reflexivity|].
           exists n. split; [reflexivity|]. now apply forEach_evaluate_returns.
        -- discriminate.
      * split; [|split].
        -- eexists. split; [reflexivity|]. simpl. split; discriminate.
        -- split; [discriminate|]. intros [_ [n' [[= <-] H]]].
           apply forEach_evaluate_returns in H. congruence.
        -- discriminate.
    + split; [|split].
      * eexists. split; [reflexivity|]. simpl. split; discriminate.
      * split; [discriminate|]. intros [_ [n [H _]]]. discriminate.
      * discriminate.
Qed.

(** X12: when the validator accepts an expression in which no digit touches
    an [x] (so that the rewrite leaves it as it is), [evaluateExpression]
    does not fail on it at the five test values: it returns what mathjs
    computes. *)
Theorem accepted_plain_expression_evaluates (expression : string) :
  plain expression = true ->
  validateExpression math expression = Returns (mkValidation true None) ->
  forall a, In a test_values ->
    exists v, evaluateExpression math expression a = Returns v
              /\ exists n, parse math expression = Returns n
                           /\ evaluate math n a = Returns v.
Proof.
  intros Hplain Hok a Ha.
  assert (exists n, parse math (sanitize expression) = Returns n
                    /\ forEach_evaluate math n test_values = Returns tt)
    as [n [Hn Hall]].
  { unfold validateExpression in Hok. rewrite falsy_trim in Hok.
    destruct (blank expression); [discriminate|].
    cbv zeta in Hok. unfold bind, try_catch in Hok.
    destruct (parse math (sanitize expression)) as [n|m]; [|discriminate].
    exists n. split; [reflexivity|].
    destruct (forEach_evaluate_cases n test_values) as [E|[m E]];
      [exact E | rewrite E in Hok; discriminate]. }
  rewrite forEach_evaluate_returns in Hall.
  rewrite (sanitize_plain _ Hplain) in Hn.
  destruct (Hall a Ha) as [v Hv].
  exists v. split; [|now exists n].
  unfold evaluateExpression, bind, try_catch. now rewrite Hn, Hv.
Qed.

End ValidatorMore.

(** ** graphUtils: bounds of a point sequence *)

Lemma min_Num (p q : Q) : min (Num p) (Num q) = Num (if Qltb q p then q else p).
Proof. unfold min. simpl. now destruct (Qltb q p). Qed.

Lemma max_Num (p q : Q) : max (Num p) (Num q) = Num (if Qltb p q then q else p).
Proof. unfold max. simpl. now destruct (Qltb p q). Qed.

Lemma min_Num_spec (p q : Q) :
  exists r, min (Num p) (Num q) = Num r /\ r <= p /\ r <= q.
Proof.
  rewrite min_Num. eexists. split; [reflexivity|].
  destruct (Qltb q p) eqn:E.
  - apply Qltb_lt in E. lra.
  - apply not_true_iff_false in E. rewrite Qltb_lt in E. lra.
Qed.

Lemma max_Num_spec (p q : Q) :
  exists r, max (Num p) (Num q) = Num r /\ p <= r /\ q <= r.
Proof.
  rewrite max_Num. eexists. split; [reflexivity|].
  destruct (Qltb p q) eqn:E.
  - apply Qltb_lt in E. lra.
  - apply not_true_iff_false in E. rewrite Qltb_lt in E. lra.
Qed.

Lemma finite_point_Num (p : point) :
  finite_point p -> exists a b, p = mkPoint (Num a) (Num b).
Proof.
  destruct p as [[a| | |] [b| | |]]; intros [H1 H2]; try discriminate.
  now exists a, b.
Qed.

Lemma inside_Num (x0 x1 y0 y1 a b : Q) :
  inside (mkBounds (Num x0) (Num x1) (Num y0) (Num y1))
    (mkPoint (Num a) (Num b))
  <-> x0 <= a /\ a <= x1 /\ y0 <= b /\ b <= y1.
Proof. unfold inside. simpl. now rewrite !Qle_bool_iff. Qed.

Lemma inside_widen (x0 x1 y0 y1 x0' x1' y0' y1' : Q) (p : point) :
  x0' <= x0 -> x1 <= x1' -> y0' <= y0 -> y1 <= y1' ->
  inside (mkBounds (Num x0) (Num x1) (Num y0) (Num y1)) p ->
  inside (mkBounds (Num x0') (Num x1') (Num y0') (Num y1')) p.
Proof.
  intros Hx0 Hx1 Hy0 Hy1. unfold inside. simpl.
  destruct p as [[a| | |] [b| | |]]; simpl; try tauto;
    rewrite ?Qle_bool_iff; intros [? [? [? ?]]]; try discriminate;
    repeat split; try assumption; lra.
Qed.

Lemma reducer_spans (acc : Bounds) (seen : list point) (p : point) :
  spans acc seen -> finite_point p ->
  spans (graphUtils.reducer acc p) (seen ++ [p]).
Proof.
  intros [x0 [x1 [y0 [y1 [-> [Hx [Hy Hin]]]]]]] Hp.
  destruct (finite_point_Num p Hp) as [a [b ->]].
  unfold graphUtils.reducer. cbn [xMin xMax yMin yMax point_x point_y].
  destruct (min_Num_spec x0 a) as [x0' [-> [? ?]]].
  destruct (max_Num_spec x1 a) as [x1' [-> [? ?]]].
  destruct (min_Num_spec y0 b) as [y0' [-> [? ?]]].
  destruct (max_Num_spec y1 b) as [y1' [-> [? ?]]].
  exists x0', x1', y0', y1'. split; [reflexivity|].
  split; [lra|]. split; [lra|].
  apply Forall_app. split.
  - eapply Forall_impl; [|exact Hin]. intros q.
    apply inside_widen; assumption.
  - constructor; [|constructor]. apply inside_Num. repeat split; assumption.
Qed.

Lemma fold_spans (l : list point) :
  forall acc seen,
    spans acc seen -> Forall finite_point l ->
    spans (fold_left graphUtils.reducer l acc) (seen ++ l).
Proof.
  induction l as [|p l IH]; intros acc seen Hacc Hl.
  - now rewrite app_nil_r.
  - inversion Hl as [|? ? Hp Hl']; subst. simpl.
    change (seen ++ p :: l) with (seen ++ [p] ++ l). rewrite app_assoc.
    apply IH; [|exact Hl']. now apply reducer_spans.
Qed.

Lemma reduce_spans (l : list point) :
  l <> [] -> Forall finite_point l ->
  spans (fold_left graphUtils.reducer l graphUtils.initial) l.
Proof.
  destruct l as [|p l]; [congruence|]. intros _ Hl.
  inversion Hl as [|? ? Hp Hl']; subst.
  destruct (finite_point_Num p Hp) as [a [b ->]].
  apply (fold_spans l _ [mkPoint (Num a) (Num b)]); [|exact Hl'].
  exists a, a, b, b. split; [reflexivity|].
  split; [lra|]. split; [lra|].
  constructor; [|constructor]. apply inside_Num. repeat split; lra.
Qed.

Lemma or_else_positive (r : Q) :
  0 <= r ->
  exists r', graphUtils.or_else (Num r) (Num 10) = Num r' /\ 0 < r'.
Proof.
  intros Hr. unfold graphUtils.or_else, falsy_number.
  destruct (Qeq_bool r 0) eqn:E.
  - exists 10. split; [reflexivity | reflexivity].
  - exists r. split; [reflexivity|].
    apply not_true_iff_false in E. rewrite Qeq_bool_iff in E. lra.
Qed.

Lemma safe_points_finite (points : list point) :
  Forall (fun p => isFinite (point_x p) = true) points ->
  Forall finite_point (filter graphUtils.safe points).
Proof.
  intros H. apply Forall_forall. intros p Hp.
  apply filter_In in Hp. destruct Hp as [Hin Hs].
  rewrite Forall_forall in H. split; [now apply H|].
  unfold graphUtils.safe in Hs. apply andb_true_iff in Hs. tauto.
Qed.

(** the shape of the result, for finite abscissas and a finite padding *)
Lemma calculateBounds_shape (points : list point) (pd : Q) :
  0 <= pd ->
  Forall (fun p => isFinite (point_x p) = true) points ->
  exists x0 x1 y0 y1,
    graphUtils.calculateBounds points (Num pd)
    = mkBounds (Num x0) (Num x1) (Num y0) (Num y1)
    /\ x0 <= x1 /\ y0 < y1 /\ (0 < pd -> x0 < x1)
    /\ Forall (inside (mkBounds (Num x0) (Num x1) (Num y0) (Num y1)))
         (filter graphUtils.safe points).
Proof.
  intros Hpd Hfin. unfold graphUtils.calculateBounds.
  pose proof (safe_points_finite points Hfin) as Hsafe.
  destruct (filter graphUtils.safe points) as [|p l] eqn:E.
  - simpl. exists (-10), 10, (-10), 10. split; [reflexivity|].
    repeat split; try reflexivity; try constructor. discriminate.
  - cbn [List.length Nat.eqb]. rewrite <- E in *.
    assert (filter graphUtils.safe points <> []) as Hne
        by (rewrite E; discriminate).
    destruct (reduce_spans _ Hne Hsafe)
      as [x0 [x1 [y0 [y1 [-> [Hx [Hy Hin]]]]]]].
    cbn [xMin xMax yMin yMax]. rewrite !sub_Num.
    destruct (or_else_positive (x1 - x0)) as [rx [-> Hrx]]; [lra|].
    destruct (or_else_positive (y1 - y0)) as [ry [-> Hry]]; [lra|].
    assert (0 <= rx * pd) as Hxp by (apply Qmult_le_0_compat; lra).
    assert (0 <= ry * pd) as Hyp by (apply Qmult_le_0_compat; lra).
    assert (0 < pd -> 0 < rx * pd) as Hxs
        by (intros ?; apply Qmult_lt_0_compat; assumption).
    unfold graphUtils.strict_equal.
    destruct (Qeq_bool y0 y1) eqn:Ey; rewrite ?mul_Num, ?sub_Num, ?add_Num.
    + eexists _, _, _, _. split; [reflexivity|].
      split; [lra|]. split; [lra|]. split; [intros H; specialize (Hxs H); lra|].
      eapply Forall_impl; [|exact Hin]. intros q.
      apply inside_widen; lra.
    + apply not_true_iff_false in Ey. rewrite Qeq_bool_iff in Ey.
      eexists _, _, _, _. split; [reflexivity|].
      split; [lra|]. split; [lra|]. split; [intros H; specialize (Hxs H); lra|].
      eapply Forall_impl; [|exact Hin]. intros q.
      apply inside_widen; lra.
Qed.


(** X14: when no point is safe (no point at all, or break markers and
    infinite ordinates only) the bounds are the default window
    [-10, 10] x [-10, 10], whatever the padding. *)
Theorem bounds_default_without_safe_points (points : list point)
  (padding : number) :
  Forall (fun p => graphUtils.safe p = false) points ->
  graphUtils.calculateBounds points padding
  = mkBounds (Num (-10)) (Num 10) (Num (-10)) (Num 10).
Proof.
  intros H. unfold graphUtils.calculateBounds.
  assert (filter graphUtils.safe points = []) as ->; [|reflexivity].
  induction H as [|p points Hp _ IH]; [reflexivity|].
  simpl. now rewrite Hp.
Qed.

Section SampledBounds.

Variable math : MathJs.


End SampledBounds.

(** ** The visible window *)

(** X16: the window [calculateBounds] derives from the viewport is centred
    on [center], [20 / zoom] wide and [20 / zoom * height / width] high; for
    a positive zoom and canvas its sides are strictly ordered. *)
Theorem visible_window (cx cy z w h : Q) :
  ~ z == 0 -> ~ w == 0 ->
  exists x0 x1 y0 y1,
    calculateBounds (mkViewport (mkCoords (Num cx) (Num cy)) (Num z))
      (mkSize (Num w) (Num h))
    = mkBounds (Num x0) (Num x1) (Num y0) (Num y1)
    /\ x1 - x0 == 20 / z
    /\ y1 - y0 == 20 / z * (h / w)
    /\ (x0 + x1) / 2 == cx
    /\ (y0 + y1) / 2 == cy
    /\ (0 < z -> x0 < x1)
    /\ (0 < z -> 0 < w -> 0 < h -> y0 < y1).
Proof.
  intros Hz Hw. unfold calculateBounds.
  cbn [center zoom x y width height].
  rewrite (div_Num h w Hw), (div_Num 20 z Hz). to_Q.
  eexists _, _, _, _. split; [reflexivity|].
  split; [field; assumption|]. split; [field; split; assumption|].
  split; [field; assumption|]. split; [field; split; assumption|].
  split.
  - intros Hpos. assert (0 < 20 / z) by (apply Qlt_shift_div_l; lra).
    set (W := 20 / z) in *. clearbody W.
    unfold Qdiv. change (/ 2) with (1 # 2). lra.
  - intros Hpos Hwpos Hhpos.
    assert (0 < 20 / z) by (apply Qlt_shift_div_l; lra).
    assert (0 < h / w) by (apply Qlt_shift_div_l; lra).
    assert (0 < 20 / z * (h / w)) by (apply Qmult_lt_0_compat; assumption).
    set (H' := 20 / z * (h / w)) in *. clearbody H'.
    unfold Qdiv. change (/ 2) with (1 # 2). lra.
Qed.

Lemma extent_nonzero (c V : Q) : ~ V == 0 -> ~ c + V / 2 - (c - V / 2) == 0.
Proof. intros HV E. apply HV. rewrite <- E. field. Qed.

Lemma scaled_nonzero (c h : Q) : ~ h == 0 -> ~ c + 20 * h - (c - 20 * h) == 0.
Proof.
  intros Hh E. apply Hh.
  assert (40 * h == 0) as E' by (rewrite <- E; ring). lra.
Qed.

(** [to_Q], with the extent of a window as a divisor *)
Ltac to_Q_window :=
  repeat first
    [ rewrite add_Num | rewrite sub_Num | rewrite mul_Num
    | rewrite div_Num by first [assumption | lra
                               | apply extent_nonzero; assumption] ].

(** X17: in the window derived from the viewport, the centre is drawn at the
    middle pixel of the canvas, and one graph unit spans [width * zoom / 20]
    pixels horizontally and vertically alike (pixel [y] growing downwards):
    the plot is not distorted by the shape of the canvas. *)
Theorem window_scale_is_isotropic (cx cy z w h gx gy : Q) :
  ~ z == 0 -> ~ w == 0 -> ~ h == 0 ->
  let viewport := mkViewport (mkCoords (Num cx) (Num cy)) (Num z) in
  let size := mkSize (Num w) (Num h) in
  let bounds := calculateBounds viewport size in
  coords_eq (graphToPixel size (center viewport) bounds)
            (mkCoords (Num (w / 2)) (Num (h / 2)))
  /\ num_eq (scaleX size (Num (gx + 1)) bounds - scaleX size (Num gx) bounds)%js
            (Num (w * z / 20))
  /\ num_eq (scaleY size (Num gy) bounds - scaleY size (Num (gy + 1)) bounds)%js
            (Num (w * z / 20)).
Proof.
  intros Hz Hw Hh viewport size bounds.
  assert (~ 20 / z == 0) as HW by (apply Qdiv_nonzero; [lra | exact Hz]).
  assert (~ 20 / z * (h / w) == 0) as HH.
  { intros E. apply Qmult_integral in E. destruct E as [E|E]; [tauto|].
    revert E. apply Qdiv_nonzero; assumption. }
  subst viewport size bounds.
  unfold coords_eq, graphToPixel, scaleX, scaleY, calculateBounds.
  cbn [center zoom x y width height xMin xMax yMin yMax].
  rewrite (div_Num h w Hw), (div_Num 20 z Hz).
  set (W := 20 / z) in *. set (A := h / w) in *.
  to_Q_window. unfold num_eq. subst W A.
  repeat split; field; repeat split; try assumption; try lra;
    apply scaled_nonzero; assumption.
Qed.

(** ** More on the zoom *)

Lemma clamp_idempotent (v : number) : clamp (clamp v) = clamp v.
Proof.
  destruct v as [q| | |]; try reflexivity.
  unfold clamp. rewrite min_Num.
  destruct (Qltb q 2) eqn:E2; rewrite max_Num.
  - destruct (Qltb (1 # 2) q) eqn:E1.
    + rewrite min_Num, E2, max_Num, E1. reflexivity.
    + reflexivity.
  - reflexivity.
Qed.

(** X18: [handleZoomChange] clamps a value that [setZoomLevel] clamps again;
    the second clamp changes nothing, so both set the same zoom, and a
    request made twice has the effect of making it once. *)
Theorem zoom_request_is_idempotent (value : number) (app : App) :
  handleZoomChange value app = setZoomLevel value app
  /\ setZoomLevel value (setZoomLevel value app) = setZoomLevel value app
  /\ handleZoomChange value (handleZoomChange value app)
     = handleZoomChange value app.
Proof.
  unfold handleZoomChange, setZoomLevel.
  cbn [viewport zoomLevel dragStart size center zoom].
  now rewrite !clamp_idempotent.
Qed.

Lemma clamp_Num_cases (q : Q) :
  (q <= 1 # 2 -> clamp (Num q) = Num (1 # 2))
  /\ (1 # 2 < q -> q < 2 -> clamp (Num q) = Num q)
  /\ (2 <= q -> clamp (Num q) = Num 2).
Proof.
  unfold clamp. rewrite min_Num.
  destruct (Qltb q 2) eqn:E2; rewrite max_Num.
  - apply Qltb_lt in E2.
    destruct (Qltb (1 # 2) q) eqn:E1.
    + apply Qltb_lt in E1. repeat split; intros; try reflexivity; lra.
    + apply not_true_iff_false in E1. rewrite Qltb_lt in E1.
      repeat split; intros; try reflexivity; lra.
  - apply not_true_iff_false in E2. rewrite Qltb_lt in E2.
    repeat split; intros; try reflexivity; lra.
Qed.

(** X19: from a zoom [q] in [0.5, 2] the zoom-in button gives [q + 0.1], or
    2 when that would reach or pass 2; the zoom-out button gives [q - 0.1],
    or 0.5 when that would reach or pass 0.5. *)
Theorem zoom_buttons_saturate (app : App) (q : Q) :
  zoom (viewport app) = Num q -> 1 # 2 <= q -> q <= 2 ->
  (q + (1 # 10) < 2 ->
   zoom (viewport (dispatch app ZoomInButton)) = Num (q + (1 # 10)))
  /\ (2 <= q + (1 # 10) ->
      zoom (viewport (dispatch app ZoomInButton)) = Num 2)
  /\ (1 # 2 < q - (1 # 10) ->
      zoom (viewport (dispatch app ZoomOutButton)) = Num (q - (1 # 10)))
  /\ (q - (1 # 10) <= 1 # 2 ->
      zoom (viewport (dispatch app ZoomOutButton)) = Num (1 # 2)).
Proof.
  intros Hz Hlo Hhi. cbn [dispatch].
  unfold handleZoomChange. cbn [setZoomLevel viewport zoom].
  rewrite !clamp_idempotent, Hz, add_Num, sub_Num.
  destruct (clamp_Num_cases (q + (1 # 10))) as [_ [I1 I2]].
  destruct (clamp_Num_cases (q - (1 # 10))) as [O1 [O2 _]].
  repeat split; intros.
  - apply I1; lra.
  - now apply I2.
  - apply O2; lra.
  - now apply O1.
Qed.

Lemma control_keeps_zoomLevel (app : App) (ev : Event) :
  control_event ev -> zoomLevel (dispatch app ev) = zoomLevel app.
Proof. destruct ev; simpl; intros H; try reflexivity; destruct H. Qed.

(** X20: the zoom buttons, the slider and the reset button change the
    viewport only: the separate [zoomLevel] state, from which the drawing
    effect takes its sampling step, keeps its value over any sequence of
    such events. *)
Theorem controls_leave_zoomLevel_stale (events : list Event) :
  Forall control_event events ->
  forall app, zoomLevel (run app events) = zoomLevel app.
Proof.
  induction events as [|ev events IH]; intros Hev app; [reflexivity|].
  inversion Hev; subst. unfold run in *. simpl.
  rewrite IH by assumption. now apply control_keeps_zoomLevel.
Qed.

(** ** More on panning *)

Lemma falsy_number_false (q : Q) : ~ q == 0 -> falsy_number (Num q) = false.
Proof. intros H. simpl. now apply Qeq_bool_false. Qed.

(** X21: dragging from [a] to [b] and releasing, then dragging from [b] back
    to [a] and releasing, restores the centre of the viewport; zoom and
    canvas size are untouched (both presses at a non-zero [clientX]). *)
Theorem drag_there_and_back (app : App) (cx cy z w h ax ay bx by' : Q) :
  viewport app = mkViewport (mkCoords (Num cx) (Num cy)) (Num z) ->
  size app = mkSize (Num w) (Num h) ->
  ~ w == 0 -> ~ h == 0 -> ~ ax == 0 -> ~ bx == 0 ->
  let a := mkMouse (Num ax) (Num ay) in
  let b := mkMouse (Num bx) (Num by') in
  let app' := run app (drag a b ++ drag b a) in
  coords_eq (center (viewport app')) (center (viewport app))
  /\ zoom (viewport app') = zoom (viewport app)
  /\ size app' = size app.
Proof.
  intros Hv Hs Hw Hh Ha Hb a b app'. subst app' a b.
  destruct app as [v zl d s]. cbn [viewport size] in Hv, Hs. subst v s.
  unfold run, drag. cbn [app fold_left dispatch].
  unfold handleMouseMove, handleMouseDown, handleViewportChange.
  cbn [viewport size dragStart zoomLevel clientX clientY center zoom
       drag_x drag_y startCenter width height x y falsy_number].
  rewrite (Qeq_bool_false ax Ha).
  cbn [viewport size dragStart zoomLevel clientX clientY center zoom
       drag_x drag_y startCenter width height x y falsy_number].
  rewrite (Qeq_bool_false bx Hb).
  cbn [viewport size dragStart zoomLevel clientX clientY center zoom
       drag_x drag_y startCenter width height x y falsy_number].
  split; [|split; reflexivity].
  unfold coords_eq. cbn [x y]. to_Q. unfold num_eq.
  split; field; assumption.
Qed.

Lemma hover_step (app : App) (e : MouseEvent) :
  falsy_number (drag_x (dragStart app)) = true ->
  dispatch app (MouseMove e) = app.
Proof.
  intros H. cbn [dispatch]. unfold handleMouseMove. now rewrite H.
Qed.

Lemma hover_run (moves : list MouseEvent) :
  forall app, falsy_number (drag_x (dragStart app)) = true ->
              run app (map MouseMove moves) = app.
Proof.
  induction moves as [|e moves IH]; intros app H; [reflexivity|].
  unfold run in *. cbn [map fold_left].
  rewrite hover_step by exact H. now apply IH.
Qed.

(** X22: mouse moves change nothing while no drag is in progress: in the
    initial state, after a release, and also after a press at
    [clientX = 0], which the handler takes for no press at all. *)
Theorem moves_without_press_are_ignored (moves : list MouseEvent) :
  run initial (map MouseMove moves) = initial
  /\ (forall app,
        run (dispatch app MouseUp) (map MouseMove moves)
        = dispatch app MouseUp)
  /\ (forall app cy,
        run (dispatch app (MouseDown (mkMouse (Num 0) cy)))
            (map MouseMove moves)
        = dispatch app (MouseDown (mkMouse (Num 0) cy))).
Proof.
  split; [|split]; intros; apply hover_run; reflexivity.
Qed.

(** ** Clicks *)

Lemma ltb_irrefl (a : number) : (a <? a)%js = false.
Proof.
  destruct a as [q| | |]; try reflexivity. simpl.
  apply not_true_iff_false. rewrite Qltb_lt. lra.
Qed.

Lemma ltb_not_NaN (a b : number) : (a <? b)%js = true -> isNaN a = false.
Proof. destruct a, b; simpl; try discriminate; reflexivity. Qed.

(** a number not below [m] is not below anything that is below [m] *)
Lemma not_ltb_below (d m m' : number) :
  (d <? m)%js = false -> (m' <? m)%js = true -> (d <? m')%js = false.
Proof.
  destruct d as [d| | |], m as [m| | |], m' as [m'| | |]; simpl;
    try discriminate; try reflexivity.
  intros H1 H2. apply not_true_iff_false in H1.
  rewrite Qltb_lt in H1, H2. apply not_true_iff_false. rewrite Qltb_lt. lra.
Qed.

(** below [h] but [m] is not: below [m] *)
Lemma ltb_below (d m h : number) :
  (d <? h)%js = true -> (m <? h)%js = false -> isNaN m = false ->
  (d <? m)%js = true.
Proof.
  destruct d as [d| | |], m as [m| | |], h as [h| | |]; simpl;
    try discriminate; try reflexivity.
  intros H1 H2 _. apply not_true_iff_false in H2.
  rewrite Qltb_lt in H1, H2. apply Qltb_lt. lra.
Qed.

Section HitTestFacts.

Variable math : MathJs.
Variable sqrt : number -> number.

(** the minimum search over a list of candidates *)
Lemma fold_visit (g : coords) (cands : list candidate) :
  forall st,
    (forall d, (d <? snd st)%js = false ->
               (d <? snd (fold_left (visit sqrt g) cands st))%js = false)
    /\ (fold_left (visit sqrt g) cands st = st
        \/ exists c, In c cands
             /\ fold_left (visit sqrt g) cands st
                = (Some (closest_of (fst c) (snd c)),
                   distance sqrt g (snd c))
             /\ (distance sqrt g (snd c) <? snd st)%js = true)
    /\ (forall c, In c cands ->
          (distance sqrt g (snd c)
           <? snd (fold_left (visit sqrt g) cands st))%js = false).
Proof.
  induction cands as [|c cands IH]; intros st.
  - simpl. split; [auto|]. split; [now left|]. intros c [].
  - cbn [fold_left]. set (st1 := visit sqrt g st c).
    destruct (IH st1) as [Hmono [Hpick Hmin]].
    assert (((distance sqrt g (snd c) <? snd st)%js = true
             /\ st1 = (Some (closest_of (fst c) (snd c)),
                       distance sqrt g (snd c)))
            \/ ((distance sqrt g (snd c) <? snd st)%js = false
                /\ st1 = st)) as Hst1.
    { unfold st1, visit.
      destruct (distance sqrt g (snd c) <? snd st)%js; [now left | now right]. }
    clearbody st1. destruct Hst1 as [[E ->]|[E ->]].
    + cbn [snd] in Hmono. split; [|split].
      * intros d Hd. apply Hmono. exact (not_ltb_below _ _ _ Hd E).
      * right. destruct Hpick as [->|[c' [Hin [-> Hlt]]]].
        -- exists c. split; [now left|]. now split.
        -- exists c'. split; [now right|]. split; [reflexivity|].
           cbn [snd] in Hlt. exact (ltb_trans _ _ _ Hlt E).
      * intros c' [<-|Hin]; [|now apply Hmin].
        apply Hmono. apply ltb_irrefl.
    + split; [exact Hmono|]. split.
      * destruct Hpick as [->|[c' [Hin [-> Hlt]]]]; [now left|].
        right. exists c'. split; [now right|]. now split.
      * intros c' [<-|Hin]; [|now apply Hmin].
        now apply Hmono.
Qed.

Lemma fold_visit_point (eq : Equation) (g : coords) (points : list point) :
  forall st,
    fold_left (visit_point sqrt eq g) points st
    = fold_left (visit sqrt g)
        (map (pair eq)
           (filter (fun p => negb (isNaN (point_y p))) points)) st.
Proof.
  induction points as [|p points IH]; intros st; [reflexivity|].
  cbn [fold_left filter]. rewrite IH. unfold visit_point at 1.
  destruct (isNaN (point_y p)); reflexivity.
Qed.

Lemma forEach_equation_fold (fuel : nat) (g : coords)
  (equations : list Equation) :
  forall st st',
    forEach_equation math sqrt fuel g equations st = Some (Returns st') ->
    exists cands,
      st' = fold_left (visit sqrt g) cands st
      /\ forall c, In c cands <-> sampled_candidate math fuel g equations c.
Proof.
  induction equations as [|eq equations IH]; intros st st' H.
  - injection H as <-. exists []. split; [reflexivity|].
    intros c. split; [intros [] | intros [[] _]].
  - cbn [forEach_equation] in H. unfold visit_equation in H.
    destruct (eq_visible eq) eqn:V; cbn [negb] in H.
    + destruct (generatePoints math fuel (eq_expression eq)
                  (x g - Num (1 # 10))%js (x g + Num (1 # 10))%js
                  (Num (1 # 100))) as [[points|m]|] eqn:G;
        try discriminate.
      destruct (IH _ _ H) as [cands [-> Hc]].
      rewrite fold_visit_point, <- fold_left_app.
      eexists. split; [reflexivity|].
      intros c. rewrite in_app_iff, Hc, in_map_iff. split.
      * intros [[p [<- Hp]]|[Hin Hrest]].
        -- apply filter_In in Hp. destruct Hp as [Hp Hn].
           apply negb_true_iff in Hn.
           split; [now left|]. split; [exact V|]. split; [exact Hn|].
           now exists points.
        -- split; [now right | exact Hrest].
      * destruct c as [eq' p]. cbn [fst snd].
        intros [[->|Hin] [Hv [Hn [pts [Hg Hp]]]]].
        -- left. exists p. split; [reflexivity|].
           apply filter_In. rewrite G in Hg. injection Hg as <-.
           split; [exact Hp | now apply negb_true_iff].
        -- right. split; [exact Hin|]. split; [exact Hv|].
           split; [exact Hn|]. now exists pts.
    + destruct (IH _ _ H) as [cands [-> Hc]].
      exists cands. split; [reflexivity|].
      intros c. rewrite Hc. split.
      * intros [Hin Hrest]. split; [now right | exact Hrest].
      * intros [[<-|Hin] [Hv Hrest]]; [congruence|].
        split; [exact Hin|]. now split.
Qed.

Lemma forEach_equation_never_throws (fuel : nat) (g : coords)
  (equations : list Equation) :
  forall st m,
    forEach_equation math sqrt fuel g equations st <> Some (Throws m).
Proof.
  induction equations as [|eq equations IH]; intros st m; [discriminate|].
  cbn [forEach_equation]. unfold visit_equation.
  destruct (eq_visible eq); cbn [negb]; [|apply IH].
  destruct (generatePoints math fuel (eq_expression eq)
              (x g - Num (1 # 10))%js (x g + Num (1 # 10))%js
              (Num (1 # 100))) as [[points|m']|] eqn:G.
  - apply IH.
  - now apply generatePoints_never_throws in G.
  - discriminate.
Qed.

(** what a click does, given the state the search ends in *)
Lemma handleCanvasClick_cases (fuel : nat) (rect : Rect) (v : Viewport)
  (s : Size) (equations : list Equation) (e : MouseEvent)
  (old r : option TangentPoint) :
  handleCanvasClick math sqrt fuel rect v s equations e old
  = Some (Returns r) ->
  exists closest m,
    forEach_equation math sqrt fuel (graphPointAt rect v s e) equations
      (None, Infinity) = Some (Returns (closest, m))
    /\ ((r = None /\ (closest = None \/ (m <? Num (1 # 2))%js = false))
        \/ exists c d,
             closest = Some c /\ (m <? Num (1 # 2))%js = true
             /\ calculateDerivative math (cp_equation c) (cp_x c) default_h
                = Returns (Some d)
             /\ r = Some (mkTangent c d)).
Proof.
  unfold handleCanvasClick. cbv zeta.
  destruct (forEach_equation math sqrt fuel (graphPointAt rect v s e)
              equations (None, Infinity)) as [[[closest m]|msg]|];
    try discriminate.
  intros H. exists closest, m. split; [reflexivity|].
  destruct closest as [c|].
  - destruct (m <? Num (1 # 2))%js eqn:E.
    + destruct (calculateDerivative_central_difference math (cp_equation c)
                  (cp_x c) default_h) as [y1 [y2 [_ [_ Hd]]]].
      rewrite Hd in H. injection H as <-.
      right. eexists _, _. split; [reflexivity|]. split; [reflexivity|].
      split; [exact Hd | reflexivity].
    + injection H as <-. left. split; [reflexivity | now right].
  - injection H as <-. left. split; [reflexivity | now left].
Qed.

End HitTestFacts.

Section Clicks.

Variable math : MathJs.
Variable sqrt : number -> number.

Lemma sampled_candidate_on_curve (fuel : nat) (g : coords)
  (equations : list Equation) (c : candidate) :
  sampled_candidate math fuel g equations c ->
  evaluateExpression math (eq_expression (fst c)) (point_x (snd c))
  = Returns (point_y (snd c))
  /\ plottable (point_y (snd c))
  /\ (point_x (snd c) <=? x g + Num (1 # 10))%js = true.
Proof.
  intros [_ [_ [Hn [points [Hg Hp]]]]].
  apply generatePoints_cases in Hg. destruct Hg as [->|Hg]; [destruct Hp|].
  destruct (loop_sampled math _ _ _ _ _ [] None points (Forall_nil _) Hg)
    as [a' [prev' HI]].
  unfold sampled in HI. rewrite Forall_forall in HI.
  destruct (HI _ Hp) as [Hle Hv]. destruct (Hv Hn) as [He Hpl].
  split; [exact He|]. split; [exact Hpl | exact Hle].
Qed.

(** X24: when a click sets a tangent, its anchor is a point with a value
    that was sampled, within 0.1 of the clicked abscissa, for a visible
    equation of the list; it carries that equation's expression and colour
    and lies on its curve; its distance to the click is below 0.5 and no
    other sampled point of a visible equation is nearer; the derivative
    stored is what [calculateDerivative] returns there. *)
Theorem click_selects_nearest_sample (fuel : nat) (rect : Rect)
  (v : Viewport) (s : Size) (equations : list Equation) (e : MouseEvent)
  (old : option TangentPoint) (t : TangentPoint) :
  handleCanvasClick math sqrt fuel rect v s equations e old
  = Some (Returns (Some t)) ->
  let g := graphPointAt rect v s e in
  exists c,
    sampled_candidate math fuel g equations c
    /\ anchor t = closest_of (fst c) (snd c)
    /\ (distance sqrt g (snd c) <? Num (1 # 2))%js = true
    /\ evaluateExpression math (cp_equation (anchor t)) (cp_x (anchor t))
       = Returns (cp_y (anchor t))
    /\ calculateDerivative math (cp_equation (anchor t)) (cp_x (anchor t))
         default_h = Returns (Some (derivative t))
    /\ forall c', sampled_candidate math fuel g equations c' ->
         (distance sqrt g (snd c') <? distance sqrt g (snd c))%js = false.
Proof.
  intros H g.
  destruct (handleCanvasClick_cases math sqrt _ _ _ _ _ _ _ _ H)
    as [closest [m [Hsearch [[Hr _]|[c0 [d [-> [Hm [Hd Hr]]]]]]]]];
    [discriminate|].
  injection Hr as ->. fold g in Hsearch.
  destruct (forEach_equation_fold math sqrt _ _ _ _ _ Hsearch)
    as [cands [Hfold Hc]].
  destruct (fold_visit sqrt g cands (None, Infinity)) as [_ [Hpick Hmin]].
  rewrite <- Hfold in Hpick, Hmin.
  destruct Hpick as [Hpick|[c [Hin [Hpick _]]]]; [discriminate|].
  injection Hpick as -> ->. cbn [snd] in Hmin.
  exists c. apply Hc in Hin.
  split; [exact Hin|]. split; [reflexivity|]. split; [exact Hm|].
  split; [exact (proj1 (sampled_candidate_on_curve _ _ _ _ Hin))|].
  split; [exact Hd|].
  intros c' Hc'. apply Hmin. now apply Hc.
Qed.


Lemma forEach_equation_hidden (fuel : nat) (g : coords)
  (equations : list Equation) (st : Search) :
  Forall (fun eq => eq_visible eq = false) equations ->
  forEach_equation math sqrt fuel g equations st = Some (Returns st).
Proof.
  induction 1 as [|eq equations Hv _ IH]; [reflexivity|].
  cbn [forEach_equation]. unfold visit_equation. rewrite Hv. exact IH.
Qed.

(** X23: with no visible equation (an empty list included) a click clears
    the tangent, without sampling anything. *)
Theorem click_without_visible_equation (fuel : nat) (rect : Rect)
  (v : Viewport) (s : Size) (equations : list Equation) (e : MouseEvent)
  (old : option TangentPoint) :
  Forall (fun eq => eq_visible eq = false) equations ->
  handleCanvasClick math sqrt fuel rect v s equations e old
  = Some (Returns None).
Proof.
  intros H. unfold handleCanvasClick. cbv zeta.
  now rewrite (forEach_equation_hidden _ _ _ _ H).
Qed.

(** *** Tangents that are not drawn *)

(** X10: when the two evaluations of the central difference agree (a
    horizontal tangent) or one of them fails, the derivative is 0 or NaN,
    and [drawTangentLine] returns at its first test without drawing. *)
Theorem flat_or_failed_tangent_is_not_drawn (expression : string)
  (a v1 v2 : number) (c : ClosestPoint) :
  evaluateExpression math expression (a - default_h)%js = Returns v1 ->
  evaluateExpression math expression (a + default_h)%js = Returns v2 ->
  isNaN v1 = true \/ isNaN v2 = true
  \/ (exists q1 q2, v1 = Num q1 /\ v2 = Num q2 /\ q1 == q2) ->
  exists d,
    calculateDerivative math expression a default_h = Returns (Some d)
    /\ drawTangentLine_draws (Some (mkTangent c d)) = false.
Proof.
  intros H1 H2 Hcase.
  destruct (calculateDerivative_central_difference math expression a
              default_h) as [y1 [y2 [E1 [E2 Hd]]]].
  rewrite H1 in E1. injection E1 as <-.
  rewrite H2 in E2. injection E2 as <-.
  eexists. split; [exact Hd|].
  destruct Hcase as [Hn|[Hn|[q1 [q2 [-> [-> Hq]]]]]].
  - destruct v1; try discriminate. now destruct v2.
  - destruct v2; try discriminate. now destruct v1.
  - unfold default_h. rewrite sub_Num, mul_Num, div_Num by lra.
    cbn [drawTangentLine_draws derivative falsy_number].
    apply negb_false_iff. apply Qeq_bool_iff.
    rewrite Hq. field.
Qed.

End Clicks.

(** ** What never happens *)

Section NeverThrows.

Variable math : MathJs.
Variable sqrt : number -> number.

(** X6: a returned sequence has at most [MAX_POINTS + 1] = 1001 points: the
    cap is tested before an iteration, and an iteration pushes at most a
    marker and a point. *)
Theorem cap_is_exceeded_by_at_most_one (fuel : nat) (expression : string)
  (min max step : number) (pts : list point) :
  generatePoints math fuel expression min max step = Some (Returns pts) ->
  (List.length pts <= MAX_POINTS + 1)%nat.
Proof.
  intros H. apply generatePoints_cases in H. destruct H as [->|H].
  - cbn [List.length]. lia.
  - destruct (loop_invariant math expression max step
                (fun _ l _ => (List.length l <= MAX_POINTS + 1)%nat))
      with (fuel := fuel) (a := min) (points := @nil point)
           (previousY := @None number) (out := pts) as [_ [_ L]];
      [| cbn [List.length]; lia | exact H | exact L].
    intros a points previousY v HI _ Hlen _.
    split; [|split]; intros; [exact HI| |];
      rewrite length_app; cbn [List.length]; lia.
Qed.

(** X7: neither [generatePoints] nor [handleCanvasClick] ever throws,
    whatever mathjs does with the expressions: each either is still
    running when the fuel is spent or returns. *)
Theorem sampling_and_clicks_never_throw :
  (forall fuel expression min max step,
      generatePoints math fuel expression min max step = None
      \/ exists pts,
           generatePoints math fuel expression min max step
           = Some (Returns pts))
  /\ (forall fuel rect v s equations e old,
        handleCanvasClick math sqrt fuel rect v s equations e old = None
        \/ exists r,
             handleCanvasClick math sqrt fuel rect v s equations e old
             = Some (Returns r)).
Proof.
  split.
  - intros fuel expression min max step.
    destruct (generatePoints math fuel expression min max step)
      as [[pts|m]|] eqn:G; [right; now exists pts | | now left].
    now apply generatePoints_never_throws in G.
  - intros fuel rect v s equations e old. unfold handleCanvasClick. cbv zeta.
    destruct (forEach_equation math sqrt fuel (graphPointAt rect v s e)
                equations (None, Infinity)) as [[[closest m]|msg]|] eqn:F;
      [| now apply forEach_equation_never_throws in F | now left].
    right. destruct closest as [c|]; [|now exists None].
    destruct (m <? Num (1 # 2))%js; [|now exists None].
    destruct (calculateDerivative_central_difference math (cp_equation c)
                (cp_x c) default_h) as [y1 [y2 [_ [_ ->]]]].
    eexists. reflexivity.
Qed.

(** X9: [calculateDerivative] never throws and never returns null; what it
    returns is the central difference of the two values that
    [evaluateExpression] returns at [x - h] and [x + h] (NaN as soon as one
    of them is). *)
Theorem calculateDerivative_never_null (expression : string) (a h : number) :
  exists y1 y2,
    evaluateExpression math expression (a - h)%js = Returns y1
    /\ evaluateExpression math expression (a + h)%js = Returns y2
    /\ calculateDerivative math expression a h
       = Returns (Some ((y2 - y1) / (Num 2 * h))%js)
    /\ (isNaN y1 = true \/ isNaN y2 = true ->
        calculateDerivative math expression a h = Returns (Some NaN)).
Proof.
  destruct (calculateDerivative_central_difference math expression a h)
    as [y1 [y2 [H1 [H2 Hd]]]].
  exists y1, y2. split; [exact H1|]. split; [exact H2|]. split; [exact Hd|].
  intros [Hn|Hn]; apply calculateDerivative_failure.
  - left. rewrite H1. now destruct y1.
  - right. rewrite H2. now destruct y2.
Qed.

End NeverThrows.

(** ** Instances, continued *)

(** (1, 600000) of [broken_line] lies on the curve of "600000*x" *)
Lemma points_on_curve_witness :
  generatePoints SampleMath.math 3 "600000*x" (Num (-1)) (Num 1) (Num 2)
  = Some (Returns broken_line)
  /\ In (mkPoint (Num 1) (Num 600000)) broken_line
  /\ evaluateExpression SampleMath.math "600000*x" (Num 1)
     = Returns (Num 600000).
Proof.
  assert (In (mkPoint (Num 1) (Num 600000)) broken_line) as Hin
      by (right; right; left; reflexivity).
  split; [reflexivity|]. split; [exact Hin|].
  exact (proj1 (proj2 (points_on_curve SampleMath.math 3 "600000*x"
                         (Num (-1)) (Num 1) (Num 2) broken_line eq_refl
                         _ Hin) eq_refl)).
Defined.

Lemma points_within_range_witness :
  (Num 0 <? Num 2)%js = true
  /\ generatePoints SampleMath.math 3 "600000*x" (Num (-1)) (Num 1) (Num 2)
     = Some (Returns broken_line)
  /\ In (mkPoint (Num 1) NaN) broken_line
  /\ (Num (-1) <=? Num 1)%js = true /\ (Num 1 <=? Num 1)%js = true.
Proof.
  assert (In (mkPoint (Num 1) NaN) broken_line) as Hin
      by (right; left; reflexivity).
  split; [reflexivity|]. split; [reflexivity|]. split; [exact Hin|].
  exact (points_within_range SampleMath.math 3 "600000*x" (Num (-1)) (Num 1)
           (Num 2) broken_line eq_refl eq_refl _ Hin).
Defined.

Lemma points_on_grid_witness :
  generatePoints SampleMath.math 3 "600000*x" (Num (-1)) (Num 1) (Num 2)
  = Some (Returns broken_line)
  /\ exists k, num_eq (Num 1) (Num (-1 + inject_Z (Z.of_nat k) * 2)).
Proof.
  split; [reflexivity|].
  exact (points_on_grid SampleMath.math 3 "600000*x" (Num 1) (-1) 2
           broken_line eq_refl (mkPoint (Num 1) NaN)
           (or_intror (or_introl eq_refl))).
Defined.

Lemma constant_plottable (min max : number) :
  plottable_on SampleMath.math "1" min max.
Proof.
  intros a _ _. exists (Num 1). split; [reflexivity|]. split; reflexivity.
Defined.

Lemma cap_truncates_sampling_witness :
  0 < 1
  /\ generatePoints SampleMath.math 5 "1" (Num 0) (Num 3) (Num 1)
     = Some (Returns constant_line)
  /\ exists k, (k < MAX_POINTS)%nat
               /\ num_eq (Num 3) (Num (0 + inject_Z (Z.of_nat k) * 1)).
Proof.
  assert (0 < 1) as H1 by reflexivity.
  split; [exact H1|]. split; [reflexivity|].
  exact (cap_truncates_sampling SampleMath.math 5 "1" (Num 3) 0 1
           constant_line H1 (constant_plottable _ _) eq_refl
           (mkPoint (Num 3) (Num 1))
           (or_intror (or_intror (or_intror (or_introl eq_refl))))).
Defined.

Lemma cap_is_exceeded_by_at_most_one_witness :
  generatePoints SampleMath.math 3 "600000*x" (Num (-1)) (Num 1) (Num 2)
  = Some (Returns broken_line)
  /\ (List.length broken_line <= MAX_POINTS + 1)%nat.
Proof.
  split; [reflexivity|].
  exact (cap_is_exceeded_by_at_most_one SampleMath.math 3 "600000*x"
           (Num (-1)) (Num 1) (Num 2) broken_line eq_refl).
Defined.

(** the constant 1 drawn in the default window at zoom 1 *)
Lemma render_stops_short_of_right_edge_witness :
  0 < 1 /\ ~ 800 == 0
  /\ exists fuel pts,
       renderedPoints SampleMath.math fuel unzoomed default_canvas (Num 1) "1"
       = Some (Returns pts)
       /\ forall p, In p pts ->
            (point_x p <? xMax (calculateBounds unzoomed default_canvas)
                          - Num 1)%js = true.
Proof.
  assert (0 < 1) as H1 by reflexivity.
  assert (~ 800 == 0) as H2 by (intros H; discriminate H).
  split; [exact H1|]. split; [exact H2|].
  destruct (generatePoints_terminates SampleMath.math "1"
              (xMin (calculateBounds unzoomed default_canvas) - Num 1)%js
              (xMax (calculateBounds unzoomed default_canvas) + Num 1)%js
              (Num (2 # 100) / Num 1)%js eq_refl eq_refl eq_refl eq_refl)
    as [pts Hpts].
  eexists _, pts. split; [exact Hpts|].
  exact (render_stops_short_of_right_edge SampleMath.math _ "1" 0 0 1 800 600
           pts H1 H2 (constant_plottable _ _) Hpts).
Defined.

(** "x2" fails on both sides of 1 *)
Lemma calculateDerivative_never_null_witness :
  calculateDerivative SampleMath.math "x2" (Num 1) default_h
  = Returns (Some NaN).
Proof.
  destruct (calculateDerivative_never_null SampleMath.math "x2" (Num 1)
              default_h) as [y1 [y2 [H1 [_ [_ H]]]]].
  apply H. left.
  assert (Returns y1 = Returns NaN) as E by (rewrite <- H1; reflexivity).
  injection E as ->. reflexivity.
Defined.

(** the parabola at its vertex: both evaluations give 1e-8 *)
Lemma flat_or_failed_tangent_is_not_drawn_witness :
  exists d,
    calculateDerivative SampleMath.math "x^2" (Num 0) default_h
    = Returns (Some d)
    /\ drawTangentLine_draws
         (Some (mkTangent (mkClosest (Num 0) (Num 0) "x^2" "#1E88E5") d))
       = false.
Proof.
  refine (flat_or_failed_tangent_is_not_drawn SampleMath.math "x^2" (Num 0)
            _ _ (mkClosest (Num 0) (Num 0) "x^2" "#1E88E5")
            eq_refl eq_refl _).
  right. right. eexists _, _. split; [reflexivity|]. split; reflexivity.
Defined.

Lemma validateExpression_verdict_witness :
  ascii_only "x^2" = true
  /\ blank "x^2" = false
  /\ validateExpression SampleMath.math "x^2"
     = Returns (mkValidation true None).
Proof.
  split; [reflexivity|]. split; [reflexivity|].
  apply (proj1 (proj2 (validateExpression_verdict SampleMath.math "x^2"
                         eq_refl))).
  split; [reflexivity|].
  exists (SampleMath.PowNode (SampleMath.SymbolNode "x") 2).
  split; [reflexivity|].
  intros a _. eexists. reflexivity.
Defined.

Lemma accepted_plain_expression_evaluates_witness :
  plain "x^2" = true
  /\ validateExpression SampleMath.math "x^2"
     = Returns (mkValidation true None)
  /\ exists v, evaluateExpression SampleMath.math "x^2" (Num 2) = Returns v.
Proof.
  split; [reflexivity|]. split; [reflexivity|].
  destruct (accepted_plain_expression_evaluates SampleMath.math "x^2"
              eq_refl eq_refl (Num 2)
              (or_intror (or_intror (or_intror (or_intror
                 (or_introl eq_refl))))))
    as [v [Hv _]].
  now exists v.
Defined.

Lemma broken_line_abscissas_finite :
  Forall (fun p => isFinite (point_x p) = true) broken_line.
Proof. repeat constructor. Defined.


Lemma bounds_default_without_safe_points_witness :
  Forall (fun p => graphUtils.safe p = false)
    [mkPoint (Num 1) NaN; mkPoint (Num 2) Infinity]
  /\ graphUtils.calculateBounds
       [mkPoint (Num 1) NaN; mkPoint (Num 2) Infinity]
       graphUtils.default_padding
     = mkBounds (Num (-10)) (Num 10) (Num (-10)) (Num 10).
Proof.
  assert (Forall (fun p => graphUtils.safe p = false)
            [mkPoint (Num 1) NaN; mkPoint (Num 2) Infinity]) as H
      by (repeat constructor).
  split; [exact H|].
  exact (bounds_default_without_safe_points _ graphUtils.default_padding H).
Defined.


Lemma visible_window_witness :
  ~ 1 == 0 /\ ~ 800 == 0
  /\ exists x0 x1 y0 y1,
       calculateBounds unzoomed default_canvas
       = mkBounds (Num x0) (Num x1) (Num y0) (Num y1)
       /\ x1 - x0 == 20 / 1.
Proof.
  assert (~ 1 == 0) as H1 by (intros H; discriminate H).
  assert (~ 800 == 0) as H2 by (intros H; discriminate H).
  split; [exact H1|]. split; [exact H2|].
  destruct (visible_window 0 0 1 800 600 H1 H2)
    as [x0 [x1 [y0 [y1 [Hb [Hw _]]]]]].
  exists x0, x1, y0, y1. split; [exact Hb | exact Hw].
Defined.

Lemma window_scale_is_isotropic_witness :
  ~ 1 == 0 /\ ~ 800 == 0 /\ ~ 600 == 0
  /\ coords_eq
       (graphToPixel default_canvas (center unzoomed)
          (calculateBounds unzoomed default_canvas))
       (mkCoords (Num (800 / 2)) (Num (600 / 2))).
Proof.
  assert (~ 1 == 0) as H1 by (intros H; discriminate H).
  assert (~ 800 == 0) as H2 by (intros H; discriminate H).
  assert (~ 600 == 0) as H3 by (intros H; discriminate H).
  split; [exact H1|]. split; [exact H2|]. split; [exact H3|].
  exact (proj1 (window_scale_is_isotropic 0 0 1 800 600 0 0 H1 H2 H3)).
Defined.

Lemma zoom_buttons_saturate_witness :
  zoom (viewport initial) = Num 1 /\ 1 # 2 <= 1 /\ 1 <= 2
  /\ 1 + (1 # 10) < 2
  /\ zoom (viewport (dispatch initial ZoomInButton)) = Num (1 + (1 # 10)).
Proof.
  assert (1 # 2 <= 1) as H1 by discriminate.
  assert (1 <= 2) as H2 by discriminate.
  assert (1 + (1 # 10) < 2) as H3 by reflexivity.
  split; [reflexivity|]. split; [exact H1|]. split; [exact H2|].
  split; [exact H3|].
  exact (proj1 (zoom_buttons_saturate initial 1 eq_refl H1 H2) H3).
Defined.

Lemma controls_leave_zoomLevel_stale_witness :
  Forall control_event [ZoomSlider (Num 2); ZoomInButton; ResetView]
  /\ zoomLevel (run initial [ZoomSlider (Num 2); ZoomInButton; ResetView])
     = Num 1.
Proof.
  assert (Forall control_event
            [ZoomSlider (Num 2); ZoomInButton; ResetView]) as H
      by (repeat constructor).
  split; [exact H|].
  exact (controls_leave_zoomLevel_stale _ H initial).
Defined.

Lemma drag_there_and_back_witness :
  ~ 800 == 0 /\ ~ 600 == 0 /\ ~ 256 == 0 /\ ~ 320 == 0
  /\ coords_eq
       (center (viewport (run initial (drag press drag_right
                                       ++ drag drag_right press))))
       (center (viewport initial)).
Proof.
  assert (~ 800 == 0) as H1 by (intros H; discriminate H).
  assert (~ 600 == 0) as H2 by (intros H; discriminate H).
  assert (~ 256 == 0) as H3 by (intros H; discriminate H).
  assert (~ 320 == 0) as H4 by (intros H; discriminate H).
  repeat (split; [assumption|]).
  exact (proj1 (drag_there_and_back initial 0 0 1 800 600 256 256 320 256
                  eq_refl eq_refl H1 H2 H3 H4)).
Defined.

Lemma click_without_visible_equation_witness :
  Forall (fun eq => eq_visible eq = false) [hidden_line]
  /\ handleCanvasClick SampleMath.math sample_sqrt 0 at_origin unzoomed
       default_canvas [hidden_line] press_default None
     = Some (Returns None).
Proof.
  assert (Forall (fun eq => eq_visible eq = false) [hidden_line]) as H
      by (repeat constructor).
  split; [exact H|].
  exact (click_without_visible_equation SampleMath.math sample_sqrt 0
           at_origin unzoomed default_canvas [hidden_line] press_default
           None H).
Defined.

(** a click in the middle of the default canvas, on the line y = x *)
Lemma click_selects_nearest_sample_witness :
  exists t,
    handleCanvasClick SampleMath.math sample_sqrt 22 at_origin unzoomed
      default_canvas [identity_line] press_default None
    = Some (Returns (Some t))
    /\ cp_equation (anchor t) = "x"%string
    /\ evaluateExpression SampleMath.math "x" (cp_x (anchor t))
       = Returns (cp_y (anchor t)).
Proof.
  eexists. split; [vm_compute; reflexivity|].
  split; [reflexivity|].
  match goal with
  | |- evaluateExpression _ _ (cp_x (anchor ?t)) = _ =>
      destruct (click_selects_nearest_sample SampleMath.math sample_sqrt 22
                  at_origin unzoomed default_canvas [identity_line]
                  press_default None t)
        as [c [_ [_ [_ [He _]]]]]; [vm_compute; reflexivity | exact He]
  end.
Defined.


